(** * CZI to OME-TIFF / Imaris converter: a shallow embedding

    This development embeds [CZI-to-Imaris_or_OME-TIF.py] and proves the
    properties of its two converters, [convert_to_ometiff] and
    [convert_to_ims].

    The converters are orchestration code: they call an external CZI reader,
    numpy, tkinter dialogs, tifffile and PyImarisWriter.  The embedding keeps
    the control flow of the two functions as written and represents

    - numpy arrays as a dtype, a shape and a flat row-major (C order) buffer;
    - every call into an external library as an [event] appended to a trace,
      whose outcome (a value or an exception) is read from a [World];
    - Python exceptions as the [Raise] outcome of a small error/trace monad.

    [print] calls only log to stdout and are left out of the trace.

    Scope of the model:
    - samples are unsigned machine integers ([uint8], [uint16], [uint32]);
      floating-point pixel types are not covered;
    - extents are natural numbers, as counts reported by the reader are;
    - the reader, the dialogs, [tifffile.imwrite] and the four calls on the
      Imaris converter ([ImageConverter], [CopyBlock], [Finish], [Destroy])
      may raise; the constructors and setters of PyImarisWriter's value
      classes ([ImageSize], [Color], [ColorInfo], [Parameters], ...) are
      taken to return normally.  For the colour loop this is the behaviour of
      a PyImarisWriter that provides both [ColorInfo] and [Color]: with one
      of the two missing the loop raises [AttributeError], which the model
      does not have.  The properties that list the exceptions of
      [convert_to_ims] exhaustively are therefore stated for the libraries of
      [colour_classes_found];
    - the script under [__main__] is modelled with the dialogs it shows and
      the converter it runs; the text of its metadata dialog is not. *)

From Stdlib Require Import ZArith Floats.
From stdpp Require Import gmap strings list pretty.

Open Scope nat_scope.

(** ** numpy arrays *)

(** Integer sample types of the planes handed out by the reader. *)
Inductive dtype := uint8 | uint16 | uint32.

Global Instance dtype_eq_dec : EqDecision dtype.
Proof. solve_decision. Defined.

Definition dtype_bits (d : dtype) : Z :=
  match d with uint8 => 8 | uint16 => 16 | uint32 => 32 end%Z.

(** [str(arr.dtype)] *)
Definition dtype_str (d : dtype) : string :=
  match d with uint8 => "uint8" | uint16 => "uint16" | uint32 => "uint32" end.

(** An [ndarray] is a C-contiguous buffer: element [i0,...,ik] of an array of
    shape [[n0;...;nk]] sits at the flat position given by Horner's scheme.
    The number of elements [a.size] is read off the buffer; see [ndarray_wf]. *)
Record ndarray := mk_ndarray {
  arr_dtype : dtype;
  arr_shape : list nat;
  arr_data : list Z
}.

Definition prod_shape (sh : list nat) : nat := foldr Nat.mul 1 sh.
Global Arguments prod_shape : simpl never.

(** The buffer has as many elements as the shape announces. *)
Definition ndarray_wf (a : ndarray) : Prop :=
  length (arr_data a) = prod_shape (arr_shape a).

(** numpy's conversion of one sample on assignment into an array of type
    [dst]: nothing happens between equal types, unsigned integers wrap. *)
Definition astype (src dst : dtype) (v : Z) : Z :=
  if decide (src = dst) then v else (v mod 2 ^ dtype_bits dst)%Z.

(** ** Exceptions, traces, and the monad of the converters *)

Inductive exn :=
| RuntimeError (msg : string)
| IndexError
| ValueError
| LibraryError (origin : string).

Inductive result (A : Type) :=
| Ok (a : A)
| Raise (e : exn).
Arguments Ok {A} a.
Arguments Raise {A} e.

(** PyImarisWriter value classes. *)
Record ImageSize := mk_ImageSize {
  sz_x : nat; sz_y : nat; sz_z : nat; sz_c : nat; sz_t : nat
}.

Record Color := mk_Color {
  col_r : Z; col_g : Z; col_b : Z; col_a : float
}.

Record ColorInfo := mk_ColorInfo { base_color : option Color }.

Record ImageExtents := mk_ImageExtents {
  ext_min_x : float; ext_min_y : float; ext_min_z : float;
  ext_max_x : float; ext_max_y : float; ext_max_z : float
}.

(** [ProgressCallback()]: the object starts with [_last = 0]. *)
Record ProgressCallback := mk_ProgressCallback { cb_last : Z }.

(** Calls that leave the process. *)
Inductive event :=
| EvCziFile (path : string)
| EvReadMosaic (t c z : nat) (scale_factor : float)
| EvImwrite (path : string) (arr : ndarray) (axes : string) (ome : bool)
| EvAskFloat (title prompt : string) (initialvalue : float)
| EvImageConverter (dtype_name : string) (image_size sample_size : ImageSize)
    (dim_seq : list string) (block_size : ImageSize) (path : string)
    (app_name app_version : string) (cb : ProgressCallback)
| EvCopyBlock (flat : list Z) (idx : ImageSize)
| EvFinish (extents : ImageExtents) (params : gmap nat string)
    (time_infos : list Z) (color_infos : list ColorInfo)
    (adjust_color_range : bool)
| EvDestroy.

Definition M (A : Type) : Type := (result A * list event)%type.

Definition ret {A} (a : A) : M A := (Ok a, []).
Definition raise {A} (e : exn) : M A := (Raise e, []).
Definition lift {A} (r : result A) : M A := (r, []).
Definition bind {A B} (k : A → M B) (m : M A) : M B :=
  match m with
  | (Ok a, tr) => let '(r, tr') := k a in (r, tr ++ tr')
  | (Raise e, tr) => (Raise e, tr)
  end.

Global Instance M_ret : MRet M := @ret.
Global Instance M_bind : MBind M := @bind.

(** [for x in xs: s = body(x, s)] with the loop-carried state threaded. *)
Fixpoint for_each {A S} (xs : list A) (s : S) (body : A → S → M S) : M S :=
  match xs with
  | [] => mret s
  | x :: xs' => s' ← body x s; for_each xs' s' body
  end.

(** [range(n)] *)
Definition range (n : nat) : list nat := seq 0 n.

(** ** The outside world *)

(** The handle returned by [CziFile(path)]: [dims] is the dimension string
    read one label at a time, [size] the extents in the same order, and
    [read_mosaic] the decoder ([None] when the read raises). *)
Record CziFile := mk_CziFile {
  czi_dims : list string;
  czi_size : list nat;
  czi_read_mosaic : nat → nat → nat → float → option ndarray
}.

(** What [import PyImarisWriter] found: the attributes of
    [PyImarisWriter.PyImarisWriter] that the start-up block probes. *)
Record PWModule := mk_PWModule {
  has_ColorInfo : bool;
  has_Color : bool
}.

Record World := mk_World {
  world_import_pim : option PWModule;
  world_open : string → option CziFile;
  world_askfloat : string → string → float → option float;
  world_now : Z;
  world_imwrite_ok : bool;
  world_converter_ok : bool;
  world_copyblock_ok : bool;
  world_finish_ok : bool;
  world_destroy_ok : bool
}.

(** The start-up block: the flag is set when the import succeeds and one of
    the two colour classes is found; any exception clears it. *)
Definition IMARIS_AVAILABLE (w : World) : bool :=
  match world_import_pim w with
  | Some PW => has_ColorInfo PW || has_Color PW
  | None => false
  end.

Definition external {A} (ev : event) (origin : string) (o : option A) : M A :=
  (match o with Some a => Ok a | None => Raise (LibraryError origin) end, [ev]).

Definition guard (b : bool) : option unit := if b then Some tt else None.

Definition CziFile_open (w : World) (path : string) : M CziFile :=
  external (EvCziFile path) "aicspylibczi" (world_open w path).

Definition read_mosaic (czi : CziFile) (t c z : nat) (scale : float)
  : M ndarray :=
  external (EvReadMosaic t c z scale) "aicspylibczi"
           (czi_read_mosaic czi t c z scale).

Definition tifffile_imwrite (w : World) (path : string) (arr : ndarray)
    (axes : string) (ome : bool) : M unit :=
  external (EvImwrite path arr axes ome) "tifffile"
           (guard (world_imwrite_ok w)).

Definition askfloat (w : World) (title prompt : string) (initial : float)
  : M (option float) :=
  (Ok (world_askfloat w title prompt initial),
   [EvAskFloat title prompt initial]).

(** ** numpy operations used by the converters *)

(** [dict(zip(keys, values))]: later pairs overwrite earlier ones. *)
Definition dict_zip (keys : list string) (values : list nat)
  : gmap string nat :=
  foldl (λ m kv, <[kv.1 := kv.2]> m) ∅ (zip keys values).

(** [d.get(k, dflt)] *)
Definition dict_get (d : gmap string nat) (k : string) (dflt : nat) : nat :=
  default dflt (d !! k).

(** [tup[i]] for a possibly negative [i]. *)
Definition tuple_get {A} (l : list A) (i : Z) : result A :=
  let j := if (i <? 0)%Z then (Z.of_nat (length l) + i)%Z else i in
  if (j <? 0)%Z then Raise IndexError
  else match l !! Z.to_nat j with
       | Some x => Ok x
       | None => Raise IndexError
       end.

(** [np.zeros(shape, dtype=dt)] *)
Definition np_zeros (sh : list nat) (dt : dtype) : ndarray :=
  mk_ndarray dt sh (replicate (prod_shape sh) 0%Z).

(** [a.reshape(-1, Y, X)]: numpy refuses when the known extents multiply to
    zero or do not divide the number of elements. *)
Definition reshape_m1 (a : ndarray) (Y X : nat) : result ndarray :=
  let n := length (arr_data a) in
  if decide (Y * X = 0) then Raise ValueError
  else if decide (n mod (Y * X) = 0)
       then Ok (mk_ndarray (arr_dtype a) [n / (Y * X); Y; X] (arr_data a))
       else Raise ValueError.

(** [a[0]]: the first sub-array along the leading axis. *)
Definition getitem0 (a : ndarray) : result ndarray :=
  match arr_shape a with
  | [] => Raise IndexError
  | n :: rest =>
      if decide (n = 0) then Raise IndexError
      else Ok (mk_ndarray (arr_dtype a) rest
                          (take (prod_shape rest) (arr_data a)))
  end.

(** Flat position of the sub-array [a[t, c, z]]. *)
Definition offset3 (sh : list nat) (t c z : nat) : nat :=
  match sh with
  | _ :: nc :: nz :: rest => ((t * nc + c) * nz + z) * prod_shape rest
  | _ => 0
  end.

(** [a[t, c, z]] *)
Definition getitem3 (a : ndarray) (t c z : nat) : result ndarray :=
  match arr_shape a with
  | nt :: nc :: nz :: rest =>
      if decide (t < nt ∧ c < nc ∧ z < nz)
      then Ok (mk_ndarray (arr_dtype a) rest
                 (take (prod_shape rest)
                       (drop (offset3 (arr_shape a) t c z) (arr_data a))))
      else Raise IndexError
  | _ => Raise IndexError
  end.

(** [a[t, c, z] = p]: the samples of [p] are converted to the type of [a] and
    stored over the sub-array.  Only the case the converters produce is
    modelled as succeeding: [p] has exactly the shape of the sub-array (no
    broadcasting). *)
Definition setitem3 (a : ndarray) (t c z : nat) (p : ndarray)
  : result ndarray :=
  match arr_shape a with
  | nt :: nc :: nz :: rest =>
      if decide (t < nt ∧ c < nc ∧ z < nz) then
        if decide (arr_shape p = rest ∧ length (arr_data p) = prod_shape rest)
        then Ok (mk_ndarray (arr_dtype a) (arr_shape a)
                   (list_inserts (offset3 (arr_shape a) t c z)
                      (astype (arr_dtype p) (arr_dtype a) <$> arr_data p)
                      (arr_data a)))
        else Raise ValueError
      else Raise IndexError
  | _ => Raise IndexError
  end.

(** [a.ravel(order='C')]: the buffer itself, since arrays are C-contiguous. *)
Definition ravel (a : ndarray) : list Z := arr_data a.

(** ** convert_to_ometiff *)

Definition convert_to_ometiff (w : World) (input_czi output_path : string)
    (scale : float) : M unit :=
  czi ← CziFile_open w input_czi;
  let sizes := dict_zip (czi_dims czi) (czi_size czi) in
  let T := dict_get sizes "T" 1 in
  let C := dict_get sizes "C" 1 in
  let Z := dict_get sizes "Z" 1 in
  sample ← read_mosaic czi 0 0 0 scale;
  Y ← lift (tuple_get (arr_shape sample) (-2));
  X ← lift (tuple_get (arr_shape sample) (-1));
  let arr := np_zeros [T; C; Z; Y; X] (arr_dtype sample) in
  arr ← for_each (range T) arr (λ t arr,
           for_each (range C) arr (λ c arr,
             for_each (range Z) arr (λ z arr,
               mos ← read_mosaic czi t c z scale;
               planes ← lift (reshape_m1 mos Y X);
               plane ← lift (getitem0 planes);
               lift (setitem3 arr t c z plane))));
  tifffile_imwrite w output_path arr "TCZYX" true.

(** ** convert_to_ims *)

(** [int * float] and [float * int]: the integer is converted first. *)
Definition float_of_nat (n : nat) : float :=
  PrimFloat.of_uint63 (Uint63.of_Z (Z.of_nat n)).

Definition ImageConverter (w : World) (dtype_name : string)
    (image_size sample_size : ImageSize) (dim_seq : list string)
    (block_size : ImageSize) (path app_name app_version : string)
    (cb : ProgressCallback) : M unit :=
  external (EvImageConverter dtype_name image_size sample_size dim_seq
              block_size path app_name app_version cb)
           "PyImarisWriter" (guard (world_converter_ok w)).

Definition CopyBlock (w : World) (flat : list Z) (idx : ImageSize) : M unit :=
  external (EvCopyBlock flat idx) "PyImarisWriter"
           (guard (world_copyblock_ok w)).

Definition Finish (w : World) (extents : ImageExtents)
    (params : gmap nat string) (time_infos : list Z)
    (color_infos : list ColorInfo) (adjust : bool) : M unit :=
  external (EvFinish extents params time_infos color_infos adjust)
           "PyImarisWriter" (guard (world_finish_ok w)).

Definition Destroy (w : World) : M unit :=
  external EvDestroy "PyImarisWriter" (guard (world_destroy_ok w)).

(** Modelled from the spec: [PW.ImageSize()] with no argument, the block
    index of PyImarisWriter that the spec calls block index zero. *)
Definition ImageSize_default : ImageSize := mk_ImageSize 0 0 0 0 0.

(** [params.set_channel_name(ci, name)] *)
Definition set_channel_name (params : gmap nat string) (ci : nat)
    (name : string) : gmap nat string :=
  <[ci := name]> params.

(** [col.set_base_color(color)], for [col] an instance of PyImarisWriter's
    [ColorInfo] and [color] an instance of its [Color]. *)
Definition set_base_color (col : ColorInfo) (color : Color) : ColorInfo :=
  mk_ColorInfo (Some color).

Definition base_rgbs : list (Z * Z * Z) :=
  [(1, 0, 0); (0, 1, 0); (0, 0, 1); (1, 1, 0)]%Z.

Definition convert_to_ims (w : World) (input_czi output_path : string)
    (scale : float) : M unit :=
  if negb (IMARIS_AVAILABLE w)
  then raise (RuntimeError "PyImarisWriter unavailable; cannot write .ims")
  else
  czi ← CziFile_open w input_czi;
  let sizes := dict_zip (czi_dims czi) (czi_size czi) in
  let T := dict_get sizes "T" 1 in
  let C := dict_get sizes "C" 1 in
  let Z := dict_get sizes "Z" 1 in
  sample ← read_mosaic czi 0 0 0 scale;
  Y ← lift (tuple_get (arr_shape sample) (-2));
  X ← lift (tuple_get (arr_shape sample) (-1));
  let arr := np_zeros [T; C; Z; Y; X] (arr_dtype sample) in
  arr ← for_each (range T) arr (λ t arr,
           for_each (range C) arr (λ c arr,
             for_each (range Z) arr (λ z arr,
               mos ← read_mosaic czi t c z scale;
               planes ← lift (reshape_m1 mos Y X);
               plane ← lift (getitem0 planes);
               lift (setitem3 arr t c z plane))));
  vx ← askfloat w "Voxel Size" "X (µm):" 1;
  vy ← askfloat w "Voxel Size" "Y (µm):" 1;
  vz ← askfloat w "Voxel Size" "Z (µm):" 1;
  (* if None in (vx, vy, vz): raise *)
  match vx, vy, vz with
  | Some vx, Some vy, Some vz =>
      let image_size := mk_ImageSize X Y Z C T in
      let dim_seq := ["x"; "y"; "z"; "c"; "t"] in
      let block_size := image_size in
      let sample_size := mk_ImageSize 1 1 1 1 1 in
      conv ← ImageConverter w (dtype_str (arr_dtype arr)) image_size
               sample_size dim_seq block_size output_path "CZI2IMS" "1.0"
               (mk_ProgressCallback 0);
      let flat := ravel arr in
      let idx := ImageSize_default in
      _ ← CopyBlock w flat idx;
      params ← for_each (range C) (∅ : gmap nat string) (λ ci params,
                 mret (set_channel_name params ci ("Channel " +:+ pretty ci)));
      let time_infos := [world_now w] in
      color_infos ← for_each (range C) [] (λ ci color_infos,
                 rgb ← lift (tuple_get base_rgbs
                               (Z.of_nat (ci mod length base_rgbs)));
                 let '(r, g, b) := rgb in
                 let col := mk_ColorInfo None in
                 let col := set_base_color col (mk_Color r g b 1) in
                 mret (color_infos ++ [col]));
      let image_extents :=
        mk_ImageExtents 0 0 0 (vx * float_of_nat X) (vy * float_of_nat Y)
                        (vz * float_of_nat Z) in
      let adjust_color_range := true in
      _ ← Finish w image_extents params time_infos color_infos
            adjust_color_range;
      Destroy w
  | _, _, _ => raise (RuntimeError "Voxel size entry cancelled.")
  end.

(** ** The assembly shared by both converters

    Lines 45-59 of [convert_to_ometiff] and lines 69-83 of [convert_to_ims]
    are the same text.  [assemble] names that block, with the locals that
    the rest of either function reads, so that it is analysed once;
    [convert_to_ometiff_assemble] and [convert_to_ims_assemble] below show
    that both converters run exactly this block. *)

Record assembled := mk_assembled {
  as_T : nat; as_C : nat; as_Z : nat; as_Y : nat; as_X : nat;
  as_arr : ndarray
}.

(** The body of the innermost loop. *)
Definition store_plane (czi : CziFile) (scale : float) (Y X : nat)
    (tcz : nat * nat * nat) (arr : ndarray) : M ndarray :=
  let '(t, c, z) := tcz in
  mos ← read_mosaic czi t c z scale;
  planes ← lift (reshape_m1 mos Y X);
  plane ← lift (getitem0 planes);
  lift (setitem3 arr t c z plane).

Definition assemble (w : World) (input_czi : string) (scale : float)
  : M assembled :=
  czi ← CziFile_open w input_czi;
  let sizes := dict_zip (czi_dims czi) (czi_size czi) in
  let T := dict_get sizes "T" 1 in
  let C := dict_get sizes "C" 1 in
  let Z := dict_get sizes "Z" 1 in
  sample ← read_mosaic czi 0 0 0 scale;
  Y ← lift (tuple_get (arr_shape sample) (-2));
  X ← lift (tuple_get (arr_shape sample) (-1));
  let arr := np_zeros [T; C; Z; Y; X] (arr_dtype sample) in
  arr ← for_each (range T) arr (λ t arr,
           for_each (range C) arr (λ c arr,
             for_each (range Z) arr (λ z arr,
               store_plane czi scale Y X (t, c, z) arr)));
  mret (mk_assembled T C Z Y X arr).

(** The part of [convert_to_ims] after the assembly (lines 85-139). *)
Definition export_ims (w : World) (output_path : string) (a : assembled)
  : M unit :=
  let '(mk_assembled T C Z Y X arr) := a in
  vx ← askfloat w "Voxel Size" "X (µm):" 1;
  vy ← askfloat w "Voxel Size" "Y (µm):" 1;
  vz ← askfloat w "Voxel Size" "Z (µm):" 1;
  match vx, vy, vz with
  | Some vx, Some vy, Some vz =>
      let image_size := mk_ImageSize X Y Z C T in
      let dim_seq := ["x"; "y"; "z"; "c"; "t"] in
      let block_size := image_size in
      let sample_size := mk_ImageSize 1 1 1 1 1 in
      conv ← ImageConverter w (dtype_str (arr_dtype arr)) image_size
               sample_size dim_seq block_size output_path "CZI2IMS" "1.0"
               (mk_ProgressCallback 0);
      let flat := ravel arr in
      let idx := ImageSize_default in
      _ ← CopyBlock w flat idx;
      params ← for_each (range C) (∅ : gmap nat string) (λ ci params,
                 mret (set_channel_name params ci ("Channel " +:+ pretty ci)));
      let time_infos := [world_now w] in
      color_infos ← for_each (range C) [] (λ ci color_infos,
                 rgb ← lift (tuple_get base_rgbs
                               (Z.of_nat (ci mod length base_rgbs)));
                 let '(r, g, b) := rgb in
                 let col := mk_ColorInfo None in
                 let col := set_base_color col (mk_Color r g b 1) in
                 mret (color_infos ++ [col]));
      let image_extents :=
        mk_ImageExtents 0 0 0 (vx * float_of_nat X) (vy * float_of_nat Y)
                        (vz * float_of_nat Z) in
      let adjust_color_range := true in
      _ ← Finish w image_extents params time_infos color_infos
            adjust_color_range;
      Destroy w
  | _, _, _ => raise (RuntimeError "Voxel size entry cancelled.")
  end.

(** ** Notions used to state the properties *)

(** The triples visited by the three nested loops, in visiting order. *)
Definition triples (T C Z : nat) : list (nat * nat * nat) :=
  flat_map (λ t, flat_map (λ c, (λ z, (t, c, z)) <$> range Z) (range C))
           (range T).

(** [mos.reshape(-1, Y, X)[0]] *)
Definition first_plane (Y X : nat) (mos : ndarray) : result ndarray :=
  match reshape_m1 mos Y X with
  | Ok planes => getitem0 planes
  | Raise e => Raise e
  end.

(** The samples a plane leaves in an array of type [dt]. *)
Definition stored (dt : dtype) (p : ndarray) : ndarray :=
  mk_ndarray dt (arr_shape p) (astype (arr_dtype p) dt <$> arr_data p).

(** A well-formed array of shape [(T, C, Z, Y, X)]. *)
Definition volume (T C Z Y X : nat) (a : ndarray) : Prop :=
  arr_shape a = [T; C; Z; Y; X] ∧ ndarray_wf a.

(** A full plane of shape [(Y, X)]. *)
Definition is_plane (Y X : nat) (p : ndarray) : Prop :=
  arr_shape p = [Y; X] ∧ length (arr_data p) = Y * X.

(** What one iteration decodes: the mosaic read at [(t, c, z)], reshaped, and
    its first plane taken. *)
Definition decoded_plane (czi : CziFile) (scale : float) (Y X t c z : nat)
  : result ndarray :=
  match czi_read_mosaic czi t c z scale with
  | Some mos => first_plane Y X mos
  | None => Raise (LibraryError "aicspylibczi")
  end.

Definition read_event (scale : float) (tcz : nat * nat * nat) : event :=
  let '(t, c, z) := tcz in EvReadMosaic t c z scale.

(** [sizes.get(label, 1)] on the probed sizes. *)
Definition extent (czi : CziFile) (label : string) : nat :=
  dict_get (dict_zip (czi_dims czi) (czi_size czi)) label 1.

(** Events of the reader, as opposed to those of dialogs and writers. *)
Definition reader_event (ev : event) : bool :=
  match ev with
  | EvCziFile _ | EvReadMosaic _ _ _ _ => true
  | _ => false
  end.

Definition channel_names (C : nat) : gmap nat string :=
  foldl (λ params ci, set_channel_name params ci ("Channel " +:+ pretty ci))
        ∅ (range C).

Definition palette_color (ci : nat) : Color :=
  let '(r, g, b) :=
    default (0, 0, 0)%Z (base_rgbs !! (ci mod length base_rgbs)) in
  mk_Color r g b 1.

Definition channel_colors (C : nat) : list ColorInfo :=
  (λ ci, mk_ColorInfo (Some (palette_color ci))) <$> range C.

Definition ask_events : list event :=
  [EvAskFloat "Voxel Size" "X (µm):" 1;
   EvAskFloat "Voxel Size" "Y (µm):" 1;
   EvAskFloat "Voxel Size" "Z (µm):" 1].

(** The voxel sizes typed in, when none of the three dialogs was cancelled. *)
Definition voxel_sizes (w : World) : option (float * float * float) :=
  match world_askfloat w "Voxel Size" "X (µm):" 1,
        world_askfloat w "Voxel Size" "Y (µm):" 1,
        world_askfloat w "Voxel Size" "Z (µm):" 1 with
  | Some vx, Some vy, Some vz => Some (vx, vy, vz)
  | _, _, _ => None
  end.

Definition converter_event (output_path : string) (a : assembled) : event :=
  EvImageConverter (dtype_str (arr_dtype (as_arr a)))
    (mk_ImageSize (as_X a) (as_Y a) (as_Z a) (as_C a) (as_T a))
    (mk_ImageSize 1 1 1 1 1) ["x"; "y"; "z"; "c"; "t"]
    (mk_ImageSize (as_X a) (as_Y a) (as_Z a) (as_C a) (as_T a))
    output_path "CZI2IMS" "1.0" (mk_ProgressCallback 0).

Definition finish_event (w : World) (a : assembled)
    (v : float * float * float) : event :=
  let '(vx, vy, vz) := v in
  EvFinish
    (mk_ImageExtents 0 0 0 (vx * float_of_nat (as_X a))
       (vy * float_of_nat (as_Y a)) (vz * float_of_nat (as_Z a)))
    (channel_names (as_C a)) [world_now w] (channel_colors (as_C a)) true.

Definition failed : M unit := (Raise (LibraryError "PyImarisWriter"), []).

Definition export_ims_closed (w : World) (output_path : string)
    (a : assembled) : M unit :=
  match voxel_sizes w with
  | None => (Raise (RuntimeError "Voxel size entry cancelled."), ask_events)
  | Some v =>
      let '(r, tr) :=
        if world_converter_ok w then
          let '(r, tr) :=
            if world_copyblock_ok w then
              let '(r, tr) :=
                if world_finish_ok w then
                  (if world_destroy_ok w then Ok tt
                   else Raise (LibraryError "PyImarisWriter"), [EvDestroy])
                else failed in
              (r, finish_event w a v :: tr)
            else failed in
          (r, EvCopyBlock (ravel (as_arr a)) ImageSize_default :: tr)
        else failed in
      (r, ask_events ++ converter_event output_path a :: tr)
  end.

(** The assembly once the file is open, with the nested loops read as one
    loop over [triples]. *)
Definition assemble_opened (czi : CziFile) (scale : float) : M assembled :=
  sample ← read_mosaic czi 0 0 0 scale;
  Y ← lift (tuple_get (arr_shape sample) (-2));
  X ← lift (tuple_get (arr_shape sample) (-1));
  arr ← for_each (triples (extent czi "T") (extent czi "C") (extent czi "Z"))
          (np_zeros [extent czi "T"; extent czi "C"; extent czi "Z"; Y; X]
                    (arr_dtype sample))
          (store_plane czi scale Y X);
  mret (mk_assembled (extent czi "T") (extent czi "C") (extent czi "Z")
                     Y X arr).

(** Two handles on the same source data, as far as reads at [scale] go. *)
Definition same_source (scale : float) (czi1 czi2 : CziFile) : Prop :=
  czi_dims czi1 = czi_dims czi2
  ∧ czi_size czi1 = czi_size czi2
  ∧ ∀ t c z, czi_read_mosaic czi1 t c z scale
             = czi_read_mosaic czi2 t c z scale.

(** Events of the Imaris writer. *)
Definition writer_event (ev : event) : bool :=
  match ev with
  | EvImageConverter _ _ _ _ _ _ _ _ _ | EvCopyBlock _ _
  | EvFinish _ _ _ _ _ | EvDestroy => true
  | _ => false
  end.

(** The geometry declared by the converter initialisations of a trace: image
    size, sample size, block size and dimension sequence. *)
Definition converter_inits (tr : list event)
  : list (ImageSize * ImageSize * ImageSize * list string) :=
  omap (λ ev, match ev with
              | EvImageConverter _ image_size sample_size dim_seq block_size
                                 _ _ _ _ =>
                  Some (image_size, sample_size, block_size, dim_seq)
              | _ => None
              end) tr.

(** The blocks copied in a trace, each with its block index. *)
Definition copied_blocks (tr : list event) : list (list Z * ImageSize) :=
  omap (λ ev, match ev with
              | EvCopyBlock flat idx => Some (flat, idx)
              | _ => None
              end) tr.

(** Modelled from the spec: the block grid of the Imaris writer, which cuts
    every axis of the image into pieces of the block size (the spec: a single
    block equal to the full extents, so only one block exists). *)
Definition blocks_along (n b : nat) : nat := (n + b - 1) / b.

Definition num_blocks (image block : ImageSize) : nat :=
  blocks_along (sz_x image) (sz_x block)
  * blocks_along (sz_y image) (sz_y block)
  * blocks_along (sz_z image) (sz_z block)
  * blocks_along (sz_c image) (sz_c block)
  * blocks_along (sz_t image) (sz_t block).

(** The reading of the voxel-size sentence that has the export check the
    sign of the three entries before the writer is initialised. *)
Definition voxel_sizes_checked_positive : Prop :=
  ∀ w input_czi output_path scale vx vy vz,
    converter_inits (convert_to_ims w input_czi output_path scale).2 ≠ [] →
    voxel_sizes w = Some (vx, vy, vz) →
    (0 <? vx)%float = true ∧ (0 <? vy)%float = true
    ∧ (0 <? vz)%float = true.

(** ** A small source and some worlds around it *)

(** Two channels of three slices each, no time axis; every mosaic comes back
    as [(1, 2, 2)] with its first sample telling the triple. *)
Definition demo_read (t c z : nat) (scale : float) : option ndarray :=
  Some (mk_ndarray uint16 [1; 2; 2]
          (Z.of_nat <$> [100 * t + 10 * c + z; 7; 8; 9])).

Definition demo_czi : CziFile :=
  mk_CziFile ["S"; "C"; "Z"; "Y"; "X"] [1; 2; 3; 2; 2] demo_read.

Definition demo_answers (vx vy vz : option float)
    (title prompt : string) (initial : float) : option float :=
  if String.eqb prompt "X (µm):" then vx
  else if String.eqb prompt "Y (µm):" then vy
  else vz.

Definition demo_world_with (pim : option PWModule)
    (vx vy vz : option float) (finish_ok : bool) : World :=
  mk_World pim (λ _, Some demo_czi) (demo_answers vx vy vz) 1700000000
           true true true finish_ok true.

Definition demo_world : World :=
  demo_world_with (Some (mk_PWModule true true))
                  (Some 0.5%float) (Some 0.5%float) (Some 2%float) true.

(** The import of PyImarisWriter failed. *)
Definition demo_world_no_imaris : World :=
  demo_world_with None (Some 1%float) (Some 1%float) (Some 1%float) true.

(** The second voxel-size dialog is cancelled. *)
Definition demo_world_cancelled : World :=
  demo_world_with (Some (mk_PWModule true true))
                  (Some 1%float) None (Some 1%float) true.

(** A zero and a negative voxel size are typed in. *)
Definition demo_world_nonpositive : World :=
  demo_world_with (Some (mk_PWModule true true))
                  (Some 0%float) (Some (-2.5)%float) (Some 1%float) true.

(** [Finish] raises. *)
Definition demo_world_finish_fails : World :=
  demo_world_with (Some (mk_PWModule true true))
                  (Some 1%float) (Some 1%float) (Some 1%float) false.

(** Another handle on the same data: it differs from [demo_czi] only at
    scale factors other than 1, where it refuses to decode. *)
Definition demo_czi_scale_one : CziFile :=
  mk_CziFile ["S"; "C"; "Z"; "Y"; "X"] [1; 2; 3; 2; 2]
    (λ t c z scale, if (scale =? 1)%float then demo_read t c z scale else None).

Definition demo_world_scale_one : World :=
  mk_World (Some (mk_PWModule false true)) (λ _, Some demo_czi_scale_one)
           (demo_answers (Some 3%float) (Some 3%float) (Some 3%float)) 0
           false true true true false.

(** What the assembly of the demo source returns. *)
Definition demo_assembled : assembled :=
  mk_assembled 1 2 3 2 2
    (mk_ndarray uint16 [1; 2; 3; 2; 2]
       [0; 7; 8; 9; 1; 7; 8; 9; 2; 7; 8; 9;
        10; 7; 8; 9; 11; 7; 8; 9; 12; 7; 8; 9]%Z).

(** ** The progress callback (lines 29-41)

    [ProgressCallback()] is the record [mk_ProgressCallback 0] used above.
    [RecordProgress] is given with the values its [print] interpolates, so
    that what is reported can be stated; [progress_line] is the line itself. *)

(** [int(f)] on a Python float: truncation towards zero; [None] stands for
    the [ValueError] on a NaN and the [OverflowError] on an infinity. *)
Definition int_of_float (f : float) : option Z :=
  match Prim2SF f with
  | S754_zero _ => Some 0%Z
  | S754_finite s m e =>
      let mag := if (0 <=? e)%Z then Z.shiftl (Z.pos m) e
                 else Z.shiftr (Z.pos m) (- e) in
      Some (if s then (- mag)%Z else mag)
  | S754_infinity _ | S754_nan => None
  end.

(** [self.RecordProgress(progress, block_id)]: the new state of the object
    and, when a line is printed, the percentage and the byte count on it.
    [None] when [int] raises. *)
Definition RecordProgress (self : ProgressCallback) (progress : float)
    (block_id : Z) : option (ProgressCallback * option (Z * Z)) :=
  match int_of_float (progress * 100) with
  | None => None
  | Some pct =>
      if (5 <=? pct - cb_last self)%Z
      then Some (mk_ProgressCallback pct, Some (pct, block_id))
      else Some (self, None)
  end.

(** The text of the printed line. *)
Definition progress_line (report : Z * Z) : string :=
  "[PROGRESS] " +:+ pretty report.1 +:+ "%  bytes written: "
  +:+ pretty report.2.

(** A series of calls on one callback object, as the writer makes them: the
    final state and the reports printed, in order. *)
Fixpoint record_all (self : ProgressCallback) (calls : list (float * Z))
  : option (ProgressCallback * list (Z * Z)) :=
  match calls with
  | [] => Some (self, [])
  | (progress, block_id) :: calls' =>
      match RecordProgress self progress block_id with
      | None => None
      | Some (self', line) =>
          match record_all self' calls' with
          | None => None
          | Some (self'', lines) =>
              Some (self'', match line with
                            | Some l => l :: lines
                            | None => lines
                            end)
          end
      end
  end.

(** ** The script (lines 142-198)

    The dialogs of the script answer from a [Gui]; what the script does is a
    list of [main_event]s, the calls of the converters among them, and the way
    the process ends.  The text of the metadata dialog is not modelled, only
    the dimension labels and sizes it shows. *)

Record Gui := mk_Gui {
  gui_askopenfilename : string;          (* empty when cancelled *)
  gui_askyesno : bool;
  gui_asksaveasfilename : string → string  (* by title; empty when cancelled *)
}.

Inductive main_event :=
| MainAskOpenFilename
| MainShowInfo (title message : string)
| MainShowMetadata (dims : list string) (sizes : gmap string nat)
| MainAskYesNo
| MainAskSaveAsFilename (title defaultextension : string)
| MainLibrary (ev : event)
| MainShowError (e : exn).

(** How the process ends: by running off the end of the script, by
    [sys.exit()], or with an exception nobody caught. *)
Inductive main_exit :=
| Exited
| SysExit
| Uncaught (e : exn).

(** Step 3: the format question is only asked when Imaris is available. *)
Definition main_use_ims (g : Gui) (w : World) : bool :=
  if IMARIS_AVAILABLE w then gui_askyesno g else false.

(** Step 4: the save dialog of the chosen format. *)
Definition main_save_dialog (use_ims : bool) : string * string :=
  if use_ims then ("Save as .ims", ".ims")
  else ("Save as OME-TIFF", ".ome.tif").

Definition main (g : Gui) (w : World) : main_exit * list main_event :=
  (* 1) select CZI *)
  let in_czi := gui_askopenfilename g in
  if decide (in_czi = "") then
    (SysExit, [MainAskOpenFilename;
               MainShowInfo "Cancelled" "No CZI selected. Exiting."])
  else
  (* 2) show metadata *)
  match CziFile_open w in_czi with
  | (Raise e, tr) => (Uncaught e, MainAskOpenFilename :: (MainLibrary <$> tr))
  | (Ok czi, tr) =>
      let shown :=
        MainAskOpenFilename :: (MainLibrary <$> tr)
        ++ [MainShowMetadata (czi_dims czi)
              (dict_zip (czi_dims czi) (czi_size czi))] in
      (* 3) choose format *)
      let use_ims := main_use_ims g w in
      let asked := if IMARIS_AVAILABLE w then [MainAskYesNo] else [] in
      (* 4) save dialog *)
      let '(title, ext) := main_save_dialog use_ims in
      let out := gui_asksaveasfilename g title in
      let before := shown ++ asked ++ [MainAskSaveAsFilename title ext] in
      if decide (out = "") then
        (SysExit,
         before ++ [MainShowInfo "Cancelled" "No output selected. Exiting."])
      else
      (* 5) convert *)
      let '(r, tr) :=
        if use_ims then convert_to_ims w in_czi out 1
        else convert_to_ometiff w in_czi out 1 in
      match r with
      | Ok _ =>
          (Exited, before ++ (MainLibrary <$> tr)
                   ++ [MainShowInfo "Done" "Conversion complete!"])
      | Raise e =>
          (Exited, before ++ (MainLibrary <$> tr) ++ [MainShowError e])
      end
  end.

(** ** Further notions *)

(** Percentages that each exceed the one before, and the first [from], by
    five points or more. *)
Fixpoint spaced (from : Z) (pcts : list Z) : Prop :=
  match pcts with
  | [] => True
  | pct :: pcts' => (from + 5 ≤ pct)%Z ∧ spaced pct pcts'
  end.

(** The answer of the save dialog the script shows. *)
Definition main_out (g : Gui) (w : World) : string :=
  gui_asksaveasfilename g (main_save_dialog (main_use_ims g w)).1.

(** What the script has done when the save dialog closes. *)
Definition main_before (g : Gui) (w : World) (czi : CziFile)
  : list main_event :=
  [MainAskOpenFilename; MainLibrary (EvCziFile (gui_askopenfilename g));
   MainShowMetadata (czi_dims czi) (dict_zip (czi_dims czi) (czi_size czi))]
  ++ (if IMARIS_AVAILABLE w then [MainAskYesNo] else [])
  ++ [MainAskSaveAsFilename (main_save_dialog (main_use_ims g w)).1
                            (main_save_dialog (main_use_ims g w)).2].

(** The dialog that closes a conversion. *)
Definition main_report (r : result unit) : main_event :=
  match r with
  | Ok _ => MainShowInfo "Done" "Conversion complete!"
  | Raise e => MainShowError e
  end.

(** The conversion the script runs once both paths are chosen. *)
Definition main_conversion (g : Gui) (w : World) : M unit :=
  if main_use_ims g w
  then convert_to_ims w (gui_askopenfilename g) (main_out g w) 1
  else convert_to_ometiff w (gui_askopenfilename g) (main_out g w) 1.

(** A sample that its type can hold. *)
Definition fits (dt : dtype) (v : Z) : Prop :=
  (0 ≤ v < 2 ^ dtype_bits dt)%Z.

(** The exceptions of the reader and of the array operations. *)
Definition numpy_or_reader_error (e : exn) : Prop :=
  e = LibraryError "aicspylibczi" ∨ e = IndexError ∨ e = ValueError.

(** The rank of a call in the protocol of the Imaris converter. *)
Definition writer_step (ev : event) : option nat :=
  match ev with
  | EvImageConverter _ _ _ _ _ _ _ _ _ => Some 0
  | EvCopyBlock _ _ => Some 1
  | EvFinish _ _ _ _ _ => Some 2
  | EvDestroy => Some 3
  | _ => None
  end.

(** Events of the script that come from a conversion proper: everything the
    libraries are asked except opening the file. *)
Definition conversion_event (ev : main_event) : bool :=
  match ev with
  | MainLibrary (EvCziFile _) => false
  | MainLibrary _ => true
  | _ => false
  end.

(** Some answers for the dialogs of the script. *)
Definition demo_gui : Gui :=
  mk_Gui "in.czi" true (λ _, "out.ims").

Definition demo_gui_no_input : Gui :=
  mk_Gui "" true (λ _, "out.ims").

Definition demo_gui_no_output : Gui :=
  mk_Gui "in.czi" true (λ _, "").

(** A world in which the source cannot be opened. *)
Definition demo_world_unreadable : World :=
  mk_World (Some (mk_PWModule true true)) (λ _, None)
           (demo_answers (Some 1%float) (Some 1%float) (Some 1%float)) 0
           true true true true true.

(** A source whose slice [(0, 1, 1)] cannot be decoded. *)
Definition demo_czi_bad_slice : CziFile :=
  mk_CziFile ["S"; "C"; "Z"; "Y"; "X"] [1; 2; 3; 2; 2]
    (λ t c z scale,
       if (c =? 1) && (z =? 1) then None else demo_read t c z scale).

Definition demo_world_bad_slice : World :=
  mk_World (Some (mk_PWModule true true)) (λ _, Some demo_czi_bad_slice)
           (demo_answers (Some 1%float) (Some 1%float) (Some 1%float)) 0
           true true true true true.

(** A source with no slice at all: the Z axis has extent 0. *)
Definition demo_czi_no_slice : CziFile :=
  mk_CziFile ["C"; "Z"; "Y"; "X"] [2; 0; 2; 2] demo_read.

Definition demo_world_no_slice : World :=
  mk_World None (λ _, Some demo_czi_no_slice) (λ _ _ _, None) 0
           false true true true true.

(** A source whose mosaics come back as flat vectors, and one whose mosaics
    are empty. *)
Definition demo_czi_flat : CziFile :=
  mk_CziFile ["C"] [1] (λ _ _ _ _, Some (mk_ndarray uint8 [4] [1; 2; 3; 4]%Z)).

Definition demo_czi_empty_plane : CziFile :=
  mk_CziFile ["C"] [1] (λ _ _ _ _, Some (mk_ndarray uint8 [1; 0; 3] [])).

Definition demo_world_of (czi : CziFile) : World :=
  mk_World (Some (mk_PWModule true true)) (λ _, Some czi)
           (demo_answers (Some 1%float) (Some 1%float) (Some 1%float)) 0
           true true true true true.




(** The PyImarisWriter that was imported, if any, provides both classes the
    colour loop uses: [ColorInfo], which the start-up block looks up first,
    and [Color]. *)
Definition colour_classes_found (w : World) : Prop :=
  ∀ PW, world_import_pim w = Some PW →
        has_ColorInfo PW = true ∧ has_Color PW = true.

(** * Proofs *)

(** ** Laws of the monad *)

Section monad.
Context {A B C : Type}.

Lemma bind_ret_l (a : A) (k : A → M B) : (mret a ≫= k) = k a.
Proof. cbv [mbind mret M_bind M_ret bind ret]. by destruct (k a). Qed.

Lemma bind_lift_ok (a : A) (k : A → M B) : (lift (Ok a) ≫= k) = k a.
Proof. cbv [mbind M_bind bind lift]. by destruct (k a). Qed.

Lemma bind_assoc (m : M A) (f : A → M B) (g : B → M C) :
  ((m ≫= f) ≫= g) = (m ≫= λ a, f a ≫= g).
Proof.
  cbv [mbind M_bind bind].
  destruct m as [[a|e] tr]; [|done].
  destruct (f a) as [[b|e] tr']; [|done].
  destruct (g b) as [r tr'']. by rewrite (assoc_L (++)).
Qed.

Lemma bind_ext (m : M A) (f g : A → M B) :
  (∀ a, f a = g a) → (m ≫= f) = (m ≫= g).
Proof.
  intros Hfg. cbv [mbind M_bind bind].
  destruct m as [[a|e] tr]; [|done]. by rewrite Hfg.
Qed.
End monad.

(** ** Loops *)

Section loops.
Context {A S : Type}.
Implicit Types (xs : list A) (s : S) (body : A → S → M S).

Lemma for_each_ext xs s body body' :
  (∀ x s, body x s = body' x s) →
  for_each xs s body = for_each xs s body'.
Proof.
  intros Hb. revert s. induction xs as [|x xs IH]; intros s; [done|].
  cbn [for_each]. rewrite Hb. by apply bind_ext.
Qed.

Lemma for_each_app xs ys s body :
  for_each (xs ++ ys) s body =
  (for_each xs s body ≫= λ s', for_each ys s' body).
Proof.
  revert s. induction xs as [|x xs IH]; intros s; cbn [for_each app].
  - by rewrite bind_ret_l.
  - rewrite bind_assoc. by apply bind_ext.
Qed.

Lemma for_each_fmap {A'} (f : A' → A) (xs : list A') s body :
  for_each (f <$> xs) s body = for_each xs s (λ x, body (f x)).
Proof.
  revert s. induction xs as [|x xs IH]; intros s; [done|].
  cbn [for_each fmap list_fmap]. by apply bind_ext.
Qed.

Lemma for_each_flat_map {A'} (g : A' → list A) (xs : list A') s body :
  for_each (flat_map g xs) s body =
  for_each xs s (λ x s', for_each (g x) s' body).
Proof.
  revert s. induction xs as [|x xs IH]; intros s; [done|].
  cbn [for_each flat_map]. rewrite for_each_app. by apply bind_ext.
Qed.

(** The trace of a loop only holds what its body emits. *)
Lemma for_each_trace_Forall (P : event → Prop) xs s body :
  (∀ x s, Forall P (body x s).2) → Forall P (for_each xs s body).2.
Proof.
  intros Hb. revert s. induction xs as [|x xs IH]; intros s; simpl.
  - constructor.
  - specialize (Hb x s). cbv [mbind M_bind bind].
    destruct (body x s) as [[s'|e] tr]; [|done].
    specialize (IH s'). destruct (for_each xs s' body) as [r tr'].
    simpl in *. by apply Forall_app.
Qed.
End loops.

Lemma nested_loops_triples {S} T C Z (s : S)
    (body : nat * nat * nat → S → M S) :
  for_each (range T) s (λ t s,
    for_each (range C) s (λ c s,
      for_each (range Z) s (λ z s, body (t, c, z) s)))
  = for_each (triples T C Z) s body.
Proof.
  unfold triples. rewrite for_each_flat_map.
  apply for_each_ext; intros t s1. rewrite for_each_flat_map.
  apply for_each_ext; intros c s2. by rewrite for_each_fmap.
Qed.

Lemma convert_to_ometiff_assemble w input_czi output_path scale :
  convert_to_ometiff w input_czi output_path scale =
  (assemble w input_czi scale ≫= λ a,
     tifffile_imwrite w output_path (as_arr a) "TCZYX" true).
Proof.
  unfold convert_to_ometiff, assemble.
  repeat (rewrite bind_assoc; apply bind_ext; intros ?).
  by rewrite bind_ret_l.
Qed.

Lemma convert_to_ims_assemble w input_czi output_path scale :
  convert_to_ims w input_czi output_path scale =
  if negb (IMARIS_AVAILABLE w)
  then raise (RuntimeError "PyImarisWriter unavailable; cannot write .ims")
  else assemble w input_czi scale ≫= export_ims w output_path.
Proof.
  unfold convert_to_ims, assemble. destruct (negb _); [done|].
  repeat (rewrite bind_assoc; apply bind_ext; intros ?).
  by rewrite bind_ret_l.
Qed.

(** ** Arrays: planes and sub-array assignment *)

Lemma prod_shape_plane Y X : prod_shape [Y; X] = Y * X.
Proof. unfold prod_shape; simpl; lia. Qed.

Lemma prod_shape_volume T C Z Y X :
  prod_shape [T; C; Z; Y; X] = T * C * Z * (Y * X).
Proof. unfold prod_shape; simpl; lia. Qed.

Lemma first_plane_Ok Y X mos p :
  first_plane Y X mos = Ok p →
  p = mk_ndarray (arr_dtype mos) [Y; X] (take (Y * X) (arr_data mos))
  ∧ length (arr_data p) = Y * X
  ∧ Y * X ≠ 0.
Proof.
  unfold first_plane, reshape_m1, getitem0.
  destruct (decide (Y * X = 0)) as [|Hyx]; [done|].
  destruct (decide (_ mod _ = 0)) as [Hmod|]; [|done].
  cbn [arr_shape arr_dtype arr_data].
  destruct (decide (_ / _ = 0)) as [|Hdiv]; [done|].
  intros [= <-]. rewrite prod_shape_plane. split; [done|]. split; [|done].
  cbn [arr_data]. rewrite length_take.
  pose proof (Nat.div_mod_eq (length (arr_data mos)) (Y * X)) as Hn.
  rewrite Hmod in Hn.
  assert (1 ≤ length (arr_data mos) / (Y * X)) by lia. nia.
Qed.

(** A mosaic of shape [(1, Y, X)] or [(Y, X)] is its own first plane, the
    leading axis dropped. *)
Lemma first_plane_whole Y X mos :
  ndarray_wf mos → Y * X ≠ 0 →
  arr_shape mos = [1; Y; X] ∨ arr_shape mos = [Y; X] →
  first_plane Y X mos = Ok (mk_ndarray (arr_dtype mos) [Y; X] (arr_data mos)).
Proof.
  unfold ndarray_wf. intros Hwf Hyx Hsh.
  assert (length (arr_data mos) = Y * X) as Hlen.
  { destruct Hsh as [Hsh|Hsh]; rewrite Hsh in Hwf; rewrite Hwf;
      unfold prod_shape; simpl; lia. }
  unfold first_plane, reshape_m1, getitem0. rewrite Hlen.
  rewrite decide_False by done.
  rewrite Nat.Div0.mod_same, decide_True by done.
  cbn [arr_shape arr_dtype arr_data].
  rewrite Nat.div_same, decide_False by done.
  rewrite prod_shape_plane, take_ge by lia. done.
Qed.

Lemma flat3_lt T C Z t c z :
  t < T → c < C → z < Z → (t * C + c) * Z + z < T * C * Z.
Proof.
  intros Ht Hc Hz.
  assert (t * C + c + 1 ≤ T * C) as Htc by nia.
  assert ((t * C + c + 1) * Z ≤ T * C * Z) by (by apply Nat.mul_le_mono_r).
  lia.
Qed.

Lemma flat3_inj C Z t c z t' c' z' :
  c < C → z < Z → c' < C → z' < Z →
  (t * C + c) * Z + z = (t' * C + c') * Z + z' →
  t = t' ∧ c = c' ∧ z = z'.
Proof.
  intros Hc Hz Hc' Hz' Heq.
  assert (t * C + c = t' * C + c') as Heq' by nia.
  assert (z = z') by nia. assert (t = t') by nia. lia.
Qed.

Section segments.
Context {A : Type}.
Implicit Types (vals data : list A).

Lemma segment_inserts_same k P vals data :
  length vals = P → k * P + P ≤ length data →
  take P (drop (k * P) (list_inserts (k * P) vals data)) = vals.
Proof.
  intros Hlen Hfit. apply list_eq; intros i.
  rewrite lookup_take, lookup_drop.
  destruct (decide (i < P)) as [Hi|Hi].
  - rewrite list_lookup_inserts by lia. f_equal; lia.
  - symmetry. apply lookup_ge_None. lia.
Qed.

Lemma segment_inserts_other k k' P vals data :
  length vals = P → k ≠ k' →
  take P (drop (k' * P) (list_inserts (k * P) vals data))
  = take P (drop (k' * P) data).
Proof.
  intros Hlen Hne. apply list_eq; intros i.
  rewrite !lookup_take, !lookup_drop.
  destruct (decide (i < P)) as [Hi|Hi]; [|done].
  destruct (decide (k' < k)).
  - apply list_lookup_inserts_lt. nia.
  - apply list_lookup_inserts_ge. nia.
Qed.
End segments.

Section volume.
Variables (T C Z Y X : nat).
Implicit Types (a p : ndarray).

Lemma np_zeros_volume dt :
  volume T C Z Y X (np_zeros [T; C; Z; Y; X] dt).
Proof. split; [done|]. unfold ndarray_wf; simpl. by rewrite length_replicate. Qed.

Lemma setitem3_Ok a t c z p :
  volume T C Z Y X a → is_plane Y X p → t < T → c < C → z < Z →
  ∃ a', setitem3 a t c z p = Ok a'
        ∧ volume T C Z Y X a' ∧ arr_dtype a' = arr_dtype a
        ∧ getitem3 a' t c z = Ok (stored (arr_dtype a) p)
        ∧ ∀ t' c' z', t' < T → c' < C → z' < Z → (t', c', z') ≠ (t, c, z) →
            getitem3 a' t' c' z' = getitem3 a t' c' z'.
Proof.
  intros [Hsh Hwf] [Hpsh Hplen] Ht Hc Hz.
  unfold ndarray_wf in Hwf. rewrite Hsh, prod_shape_volume in Hwf.
  unfold setitem3. rewrite Hsh. rewrite decide_True by done.
  rewrite prod_shape_plane, decide_True by done.
  eexists; split; [done|]. unfold volume, ndarray_wf, getitem3; simpl.
  rewrite length_inserts, Hsh, prod_shape_volume, prod_shape_plane.
  pose proof (flat3_lt T C Z t c z Ht Hc Hz) as Hlt.
  repeat split; try done.
  - rewrite decide_True by done. unfold stored. rewrite Hpsh. do 2 f_equal.
    apply segment_inserts_same; [by rewrite length_fmap|]. nia.
  - intros t' c' z' Ht' Hc' Hz' Hne. rewrite !decide_True by done.
    cbn [offset3]. rewrite prod_shape_plane. do 2 f_equal.
    apply segment_inserts_other; [by rewrite length_fmap|].
    intros Heq. apply Hne.
    destruct (flat3_inj C Z t c z t' c' z') as (-> & -> & ->); done.
Qed.
End volume.

(** ** The visiting order *)

Lemma lookup_flat_map_block {A B} (g : A → list B) n (xs : list A) i j :
  (∀ x, length (g x) = n) → j < n →
  flat_map g xs !! (i * n + j) = xs !! i ≫= λ x, g x !! j.
Proof.
  intros Hlen Hj. revert i. induction xs as [|x xs IH]; intros i; [done|].
  cbn [flat_map]. destruct i as [|i].
  - rewrite lookup_app_l by (rewrite Hlen; lia). done.
  - rewrite lookup_app_r by (rewrite Hlen; lia).
    rewrite Hlen. replace (S i * n + j - n) with (i * n + j) by lia.
    apply IH.
Qed.

Lemma length_flat_map_block {A B} (g : A → list B) n (xs : list A) :
  (∀ x, length (g x) = n) → length (flat_map g xs) = length xs * n.
Proof.
  intros Hlen. induction xs as [|x xs IH]; [done|].
  cbn [flat_map]. rewrite length_app, Hlen, IH. simpl. lia.
Qed.

Lemma length_range n : length (range n) = n.
Proof. apply length_seq. Qed.

Lemma lookup_range n i : i < n → range n !! i = Some i.
Proof. intros. unfold range. by rewrite lookup_seq_lt. Qed.

Lemma elem_of_range n i : i ∈ range n ↔ i < n.
Proof. unfold range. rewrite elem_of_seq. lia. Qed.

Lemma length_triples T C Z : length (triples T C Z) = T * C * Z.
Proof.
  unfold triples.
  rewrite (length_flat_map_block _ (C * Z)), length_range; [lia|].
  intros t. rewrite (length_flat_map_block _ Z), length_range; [lia|].
  intros c. by rewrite length_fmap, length_range.
Qed.

(** The triple [(t, c, z)] is visited at position [(t * C + c) * Z + z]. *)
Lemma lookup_triples T C Z t c z :
  t < T → c < C → z < Z →
  triples T C Z !! ((t * C + c) * Z + z) = Some (t, c, z).
Proof.
  intros Ht Hc Hz. unfold triples.
  replace ((t * C + c) * Z + z) with (t * (C * Z) + (c * Z + z)) by lia.
  rewrite (lookup_flat_map_block _ (C * Z)).
  - rewrite lookup_range by done. cbn [mbind option_bind].
    rewrite (lookup_flat_map_block _ Z).
    + rewrite lookup_range by done. cbn [mbind option_bind].
      by rewrite list_lookup_fmap, lookup_range.
    + intros c'. by rewrite length_fmap, length_range.
    + done.
  - intros t'. rewrite (length_flat_map_block _ Z), length_range; [lia|].
    intros c'. by rewrite length_fmap, length_range.
  - nia.
Qed.

Lemma elem_of_triples T C Z t c z :
  (t, c, z) ∈ triples T C Z ↔ t < T ∧ c < C ∧ z < Z.
Proof.
  unfold triples. rewrite list_elem_of_In, in_flat_map. split.
  - intros (t' & Ht & Hin). apply in_flat_map in Hin as (c' & Hc & Hin).
    apply list_elem_of_In, list_elem_of_fmap in Hin as (z' & [= -> -> ->] & Hz).
    apply list_elem_of_In, elem_of_range in Ht, Hc.
    by apply elem_of_range in Hz.
  - intros (Ht & Hc & Hz). exists t. split.
    { by apply list_elem_of_In, elem_of_range. }
    apply in_flat_map. exists c. split.
    { by apply list_elem_of_In, elem_of_range. }
    apply list_elem_of_In, list_elem_of_fmap. exists z.
    split; [done|]. by apply elem_of_range.
Qed.

(** No triple is visited twice. *)
Lemma NoDup_triples T C Z : NoDup (triples T C Z).
Proof.
  apply NoDup_alt. intros i j [[t c] z] Hi Hj.
  assert ((t, c, z) ∈ triples T C Z) as (Ht & Hc & Hz)%elem_of_triples
    by (by eapply list_elem_of_lookup_2).
  pose proof (lookup_lt_Some _ _ _ Hi) as Hli.
  pose proof (lookup_lt_Some _ _ _ Hj) as Hlj.
  rewrite length_triples in Hli, Hlj.
  assert (∀ k, k < T * C * Z → triples T C Z !! k = Some (t, c, z) →
               k = (t * C + c) * Z + z) as Hpos.
  { intros k Hk Hlk.
    assert (Z ≠ 0) by lia. assert (C ≠ 0) by lia.
    pose proof (Nat.div_mod_eq k Z) as Hk1.
    pose proof (Nat.div_mod_eq (k / Z) C) as Hk2.
    pose proof (Nat.mod_upper_bound k Z) as Hz'.
    pose proof (Nat.mod_upper_bound (k / Z) C) as Hc'.
    assert (k / Z / C < T) as Ht'.
    { apply Nat.Div0.div_lt_upper_bound. apply Nat.Div0.div_lt_upper_bound. lia. }
    pose proof (lookup_triples T C Z _ _ _ Ht' (Hc' ltac:(done)) (Hz' ltac:(done)))
      as Hl.
    replace ((k / Z / C * C + k / Z mod C) * Z + k mod Z) with k in Hl by lia.
    rewrite Hlk in Hl. injection Hl as -> -> ->. lia. }
  rewrite (Hpos i), (Hpos j); done.
Qed.

(** ** The assembly loop *)


Section assembly.
Variables (czi : CziFile) (scale : float) (T C Z Y X : nat).

Lemma store_plane_unfold t c z arr :
  store_plane czi scale Y X (t, c, z) arr =
  (match decoded_plane czi scale Y X t c z with
   | Ok p => setitem3 arr t c z p
   | Raise e => Raise e
   end, [EvReadMosaic t c z scale]).
Proof.
  unfold store_plane, decoded_plane, first_plane, read_mosaic, external.
  cbv [mbind M_bind bind lift].
  destruct (czi_read_mosaic czi t c z scale) as [mos|]; [|done].
  destruct (reshape_m1 mos Y X) as [planes|]; [|done].
  destruct (getitem0 planes) as [plane|]; done.
Qed.

(** The loop reads the triples of its list in order, one read each, and
    stops at the first exception. *)
Lemma fill_trace l arr r tr :
  for_each l arr (store_plane czi scale Y X) = (r, tr) →
  tr `prefix_of` (read_event scale <$> l)
  ∧ (∀ arr', r = Ok arr' →
       tr = read_event scale <$> l
       ∧ ∀ t c z, (t, c, z) ∈ l →
           ∃ p, decoded_plane czi scale Y X t c z = Ok p).
Proof.
  revert arr r tr. induction l as [|[[t c] z] l IH]; intros arr r tr.
  - intros [= <- <-]. split; [done|]. intros arr' _. split; [done|].
    intros t c z Hin. by apply elem_of_nil in Hin.
  - cbn [for_each]. rewrite store_plane_unfold. cbv [mbind M_bind bind].
    destruct (decoded_plane czi scale Y X t c z) as [p|e] eqn:Hp.
    2:{ intros [= <- <-]. split; [|done]. by apply prefix_cons, prefix_nil. }
    destruct (setitem3 arr t c z p) as [arr1|e].
    2:{ intros [= <- <-]. split; [|done]. by apply prefix_cons, prefix_nil. }
    destruct (for_each l arr1 _) as [r' tr'] eqn:Hloop.
    apply IH in Hloop as [Hpre Hok]. intros [= <- <-]. split.
    { by apply prefix_cons. }
    intros arr' ->. destruct (Hok arr' eq_refl) as [-> Hall].
    split; [done|]. intros t' c' z' [[= -> -> ->]|Hin]%elem_of_cons; eauto.
Qed.

(** When every visited triple decodes, the loop ends normally, and each
    visited sub-array holds the plane decoded for its triple. *)
Lemma fill_Ok l arr :
  volume T C Z Y X arr →
  (∀ t c z, (t, c, z) ∈ l →
     t < T ∧ c < C ∧ z < Z ∧ ∃ p, decoded_plane czi scale Y X t c z = Ok p) →
  ∃ arr',
    for_each l arr (store_plane czi scale Y X)
      = (Ok arr', read_event scale <$> l)
    ∧ volume T C Z Y X arr' ∧ arr_dtype arr' = arr_dtype arr
    ∧ (∀ t c z p, (t, c, z) ∈ l →
         decoded_plane czi scale Y X t c z = Ok p →
         getitem3 arr' t c z = Ok (stored (arr_dtype arr) p))
    ∧ (∀ t c z, t < T → c < C → z < Z → (t, c, z) ∉ l →
         getitem3 arr' t c z = getitem3 arr t c z).
Proof.
  revert arr. induction l as [|[[t c] z] l IH]; intros arr Hvol Hall.
  - exists arr. repeat split; try done; try apply Hvol.
    intros t c z p Hin. by apply elem_of_nil in Hin.
  - destruct (Hall t c z) as (Ht & Hc & Hz & p & Hp); [left|].
    assert (is_plane Y X p) as Hplane.
    { unfold decoded_plane in Hp. destruct (czi_read_mosaic _ _ _ _ _);
        [|done]. apply first_plane_Ok in Hp as (-> & Hlen & _). done. }
    destruct (setitem3_Ok T C Z Y X arr t c z p)
      as (arr1 & Hset & Hvol1 & Hdt1 & Hsame & Hother); try done.
    destruct (IH arr1) as (arr' & Hloop & Hvol' & Hdt' & Hin' & Hout').
    { done. } { intros t' c' z' Hin. apply Hall. by right. }
    exists arr'. cbn [for_each]. rewrite store_plane_unfold, Hp, Hset.
    cbv [mbind M_bind bind]. rewrite Hloop.
    split; [done|]. split; [done|]. split; [congruence|]. split.
    + intros t' c' z' p' Hin Hp'.
      destruct (decide ((t', c', z') ∈ l)) as [Hl|Hl].
      { rewrite <- Hdt1. by apply Hin'. }
      apply elem_of_cons in Hin as [[= -> -> ->]|]; [|done].
      rewrite Hout' by done. congruence.
    + intros t' c' z' Ht' Hc' Hz' [Hne Hl]%not_elem_of_cons.
      rewrite Hout' by done. by apply Hother.
Qed.
End assembly.

(** ** The assembly as a whole *)

Lemma assemble_triples w input_czi scale :
  assemble w input_czi scale =
  (czi ← CziFile_open w input_czi;
   sample ← read_mosaic czi 0 0 0 scale;
   Y ← lift (tuple_get (arr_shape sample) (-2));
   X ← lift (tuple_get (arr_shape sample) (-1));
   arr ← for_each (triples (extent czi "T") (extent czi "C") (extent czi "Z"))
           (np_zeros [extent czi "T"; extent czi "C"; extent czi "Z"; Y; X]
                     (arr_dtype sample))
           (store_plane czi scale Y X);
   mret (mk_assembled (extent czi "T") (extent czi "C") (extent czi "Z")
                      Y X arr)).
Proof.
  unfold assemble. do 4 (apply bind_ext; intros ?).
  by rewrite nested_loops_triples.
Qed.

Section assemble_facts.
Variables (w : World) (input_czi : string) (scale : float).

Lemma assemble_Ok czi sample Y X :
  world_open w input_czi = Some czi →
  czi_read_mosaic czi 0 0 0 scale = Some sample →
  tuple_get (arr_shape sample) (-2) = Ok Y →
  tuple_get (arr_shape sample) (-1) = Ok X →
  (∀ t c z, t < extent czi "T" → c < extent czi "C" → z < extent czi "Z" →
     ∃ p, decoded_plane czi scale Y X t c z = Ok p) →
  ∃ arr,
    assemble w input_czi scale =
      (Ok (mk_assembled (extent czi "T") (extent czi "C") (extent czi "Z")
                        Y X arr),
       EvCziFile input_czi :: EvReadMosaic 0 0 0 scale ::
         (read_event scale <$>
            triples (extent czi "T") (extent czi "C") (extent czi "Z")))
    ∧ volume (extent czi "T") (extent czi "C") (extent czi "Z") Y X arr
    ∧ arr_dtype arr = arr_dtype sample
    ∧ ∀ t c z p,
        t < extent czi "T" → c < extent czi "C" → z < extent czi "Z" →
        decoded_plane czi scale Y X t c z = Ok p →
        getitem3 arr t c z = Ok (stored (arr_dtype sample) p).
Proof.
  intros Hopen Hsample HY HX Hall.
  destruct (fill_Ok czi scale (extent czi "T") (extent czi "C")
              (extent czi "Z") Y X
              (triples (extent czi "T") (extent czi "C") (extent czi "Z"))
              (np_zeros [extent czi "T"; extent czi "C"; extent czi "Z"; Y; X]
                        (arr_dtype sample)))
    as (arr & Hloop & Hvol & Hdt & Hin & _).
  { apply np_zeros_volume. }
  { intros t c z (Ht & Hc & Hz)%elem_of_triples. eauto. }
  exists arr. split; [|split; [done|split; [done|]]].
  - rewrite assemble_triples.
    unfold CziFile_open, read_mosaic, external. rewrite Hopen.
    cbv [mbind M_bind bind lift mret M_ret ret].
    rewrite Hsample, HY, HX, Hloop. simpl. by rewrite app_nil_r.
  - intros t c z p Ht Hc Hz Hp. eapply Hin; [|done].
    by apply elem_of_triples.
Qed.

Lemma assemble_inv a tr :
  assemble w input_czi scale = (Ok a, tr) →
  ∃ czi sample,
    world_open w input_czi = Some czi
    ∧ czi_read_mosaic czi 0 0 0 scale = Some sample
    ∧ tuple_get (arr_shape sample) (-2) = Ok (as_Y a)
    ∧ tuple_get (arr_shape sample) (-1) = Ok (as_X a)
    ∧ as_T a = extent czi "T" ∧ as_C a = extent czi "C"
    ∧ as_Z a = extent czi "Z"
    ∧ ∀ t c z, t < extent czi "T" → c < extent czi "C" →
        z < extent czi "Z" →
        ∃ p, decoded_plane czi scale (as_Y a) (as_X a) t c z = Ok p.
Proof.
  rewrite assemble_triples. unfold CziFile_open, read_mosaic, external.
  destruct (world_open w input_czi) as [czi|] eqn:Hopen; [|done].
  cbv [mbind M_bind bind lift mret M_ret ret].
  destruct (czi_read_mosaic czi 0 0 0 scale) as [sample|] eqn:Hsample;
    [|done].
  destruct (tuple_get (arr_shape sample) (-2)) as [Y|] eqn:HY; [|done].
  destruct (tuple_get (arr_shape sample) (-1)) as [X|] eqn:HX; [|done].
  destruct (for_each _ _ _) as [[arr|e] tr'] eqn:Hloop; [|done].
  intros [= <- <-]. exists czi, sample. split_and!; try done.
  intros t c z Ht Hc Hz. apply fill_trace in Hloop as [_ Hok].
  destruct (Hok arr eq_refl) as [_ Hall]. apply Hall.
  by apply elem_of_triples.
Qed.

(** Whatever happens, the assembly only talks to the reader. *)
Lemma assemble_reader_only :
  Forall (λ ev, reader_event ev = true) (assemble w input_czi scale).2.
Proof.
  rewrite assemble_triples. unfold CziFile_open, read_mosaic, external.
  cbv [mbind M_bind bind lift mret M_ret ret].
  destruct (world_open w input_czi) as [czi|]; [|by repeat constructor].
  destruct (czi_read_mosaic czi 0 0 0 scale) as [sample|];
    [|by repeat constructor].
  destruct (tuple_get (arr_shape sample) (-2)) as [Y|];
    [|by repeat constructor].
  destruct (tuple_get (arr_shape sample) (-1)) as [X|];
    [|by repeat constructor].
  match goal with |- context [for_each ?l ?s ?b] =>
    assert (Forall (λ ev, reader_event ev = true) (for_each l s b).2)
      as Hloop; [|destruct (for_each l s b) as [[arr|e] tr']] end.
  { apply for_each_trace_Forall. intros [[t c] z] arr.
    rewrite store_plane_unfold. by repeat constructor. }
  all: cbn [fst snd app] in *; do 2 (constructor; [done|]).
  all: by rewrite ?app_nil_r.
Qed.
End assemble_facts.

(** ** Probed sizes *)

Lemma lookup_dict_zip_absent keys values k :
  k ∉ keys → dict_zip keys values !! k = None.
Proof.
  unfold dict_zip. intros Hk.
  assert (∀ (l : list (string * nat)) (m : gmap string nat),
            k ∉ l.*1 → foldl (λ m kv, <[kv.1 := kv.2]> m) m l !! k = m !! k)
    as Hfold.
  { induction l as [|[k' v] l IH]; intros m Hl; [done|].
    apply not_elem_of_cons in Hl as [Hne Hl]. cbn [foldl].
    rewrite IH by done. by apply lookup_insert_ne. }
  rewrite Hfold; [done|]. intros Hin. apply Hk.
  apply list_elem_of_fmap in Hin as ([k' v] & -> & Hin).
  by apply elem_of_zip_l in Hin.
Qed.

(** A label missing from the dimension string has extent 1. *)
Lemma extent_absent czi label : label ∉ czi_dims czi → extent czi label = 1.
Proof.
  intros Hk. unfold extent, dict_get. by rewrite lookup_dict_zip_absent.
Qed.

(** ** Channel names and colours *)

Lemma for_each_pure {A S} (f : A → S → S) (xs : list A) (s : S) :
  for_each xs s (λ x s, mret (f x s)) = mret (foldl (λ s x, f x s) s xs).
Proof.
  revert s. induction xs as [|x xs IH]; intros s; [done|].
  cbn [for_each foldl]. by rewrite bind_ret_l.
Qed.

Lemma foldl_snoc_fmap {A B} (g : A → B) (xs : list A) (acc : list B) :
  foldl (λ acc x, acc ++ [g x]) acc xs = acc ++ (g <$> xs).
Proof.
  revert acc. induction xs as [|x xs IH]; intros acc; cbn [foldl fmap list_fmap].
  - by rewrite app_nil_r.
  - rewrite IH. by rewrite <- (assoc_L (++)).
Qed.

Lemma names_loop C :
  for_each (range C) (∅ : gmap nat string) (λ ci params,
    mret (set_channel_name params ci ("Channel " +:+ pretty ci)))
  = mret (channel_names C).
Proof. apply (for_each_pure (λ ci params, set_channel_name params ci _)). Qed.

Lemma palette_lookup ci :
  tuple_get base_rgbs (Z.of_nat (ci mod length base_rgbs))
  = Ok (col_r (palette_color ci), col_g (palette_color ci),
        col_b (palette_color ci))
  ∧ col_a (palette_color ci) = 1%float.
Proof.
  unfold palette_color.
  assert (ci mod length base_rgbs < 4) as Hlt
    by (apply Nat.mod_upper_bound; done).
  destruct (ci mod length base_rgbs) as [|[|[|[|n]]]]; [done..|].
  exfalso. lia.
Qed.

Lemma colors_loop C :
  for_each (range C) [] (λ ci color_infos,
    rgb ← lift (tuple_get base_rgbs (Z.of_nat (ci mod length base_rgbs)));
    let '(r, g, b) := rgb in
    let col := mk_ColorInfo None in
    let col := set_base_color col (mk_Color r g b 1) in
    mret (color_infos ++ [col]))
  = mret (channel_colors C).
Proof.
  rewrite (for_each_ext _ _ _
    (λ ci acc, mret (acc ++ [mk_ColorInfo (Some (palette_color ci))]))).
  - rewrite (for_each_pure (λ ci acc, acc ++ [_])).
    by rewrite (foldl_snoc_fmap (λ ci, mk_ColorInfo (Some (palette_color ci)))).
  - intros ci acc. destruct (palette_lookup ci) as [-> Ha].
    rewrite bind_lift_ok. unfold set_base_color. do 4 f_equal.
    destruct (palette_color ci); simpl in *. by subst.
Qed.

Lemma lookup_channel_names C i :
  channel_names C !! i =
  if decide (i < C) then Some ("Channel " +:+ pretty i) else None.
Proof.
  unfold channel_names.
  assert (∀ (l : list nat) (m : gmap nat string),
    foldl (λ params ci, set_channel_name params ci ("Channel " +:+ pretty ci))
          m l !! i
    = if decide (i ∈ l) then Some ("Channel " +:+ pretty i) else m !! i)
    as Hfold.
  { induction l as [|x l IH]; intros m.
    - rewrite decide_False; [done|]. apply not_elem_of_nil.
    - cbn [foldl]. rewrite IH. unfold set_channel_name.
      destruct (decide (i ∈ l)) as [Hl|Hl].
      + rewrite decide_True; [done|]. by right.
      + destruct (decide (i = x)) as [->|Hne].
        * rewrite lookup_insert_eq, decide_True; [done|]. by left.
        * rewrite lookup_insert_ne, decide_False; [done| |done].
          by intros [?|?]%elem_of_cons. }
  rewrite Hfold, lookup_empty.
  destruct (decide (i < C)) as [Hi|Hi].
  - rewrite decide_True; [done|]. by apply elem_of_range.
  - rewrite decide_False; [done|]. by rewrite elem_of_range.
Qed.

Lemma lookup_channel_colors C i :
  i < C → channel_colors C !! i = Some (mk_ColorInfo (Some (palette_color i))).
Proof.
  intros Hi. unfold channel_colors.
  by rewrite list_lookup_fmap, lookup_range.
Qed.

Lemma length_channel_colors C : length (channel_colors C) = C.
Proof. unfold channel_colors. by rewrite length_fmap, length_range. Qed.

(** ** The Imaris export in closed form *)

Lemma export_ims_unfold w output_path a :
  export_ims w output_path a = export_ims_closed w output_path a.
Proof.
  destruct a as [T C Z Y X arr].
  unfold export_ims, export_ims_closed, voxel_sizes, askfloat.
  cbv [mbind M_bind bind]. cbn [as_T as_C as_Z as_Y as_X as_arr].
  destruct (world_askfloat w "Voxel Size" "X (µm):" 1) as [vx|],
           (world_askfloat w "Voxel Size" "Y (µm):" 1) as [vy|],
           (world_askfloat w "Voxel Size" "Z (µm):" 1) as [vz|]; try done.
  unfold ImageConverter, CopyBlock, Finish, Destroy, external, guard, failed.
  destruct (world_converter_ok w); [|done].
  destruct (world_copyblock_ok w); [|done].
  pose proof (names_loop C) as Hn. pose proof (colors_loop C) as Hc.
  cbv [mbind M_bind bind] in Hn, Hc. rewrite Hn, Hc.
  cbv [mret M_ret ret].
  destruct (world_finish_ok w); [|done].
  by destruct (world_destroy_ok w).
Qed.

(** ** The two converters in terms of the assembly *)

Section converters.
Variables (w : World) (input_czi output_path : string) (scale : float).

Lemma convert_to_ometiff_run a tr :
  assemble w input_czi scale = (Ok a, tr) →
  convert_to_ometiff w input_czi output_path scale =
  (if world_imwrite_ok w then Ok tt else Raise (LibraryError "tifffile"),
   tr ++ [EvImwrite output_path (as_arr a) "TCZYX" true]).
Proof.
  intros Ha. rewrite convert_to_ometiff_assemble, Ha.
  unfold tifffile_imwrite, external, guard. cbv [mbind M_bind bind].
  by destruct (world_imwrite_ok w).
Qed.

Lemma convert_to_ometiff_abort e tr :
  assemble w input_czi scale = (Raise e, tr) →
  convert_to_ometiff w input_czi output_path scale = (Raise e, tr).
Proof. intros Ha. by rewrite convert_to_ometiff_assemble, Ha. Qed.

Lemma convert_to_ims_unavailable :
  IMARIS_AVAILABLE w = false →
  convert_to_ims w input_czi output_path scale =
  (Raise (RuntimeError "PyImarisWriter unavailable; cannot write .ims"), []).
Proof. intros Hav. by rewrite convert_to_ims_assemble, Hav. Qed.

Lemma convert_to_ims_run a tr :
  IMARIS_AVAILABLE w = true →
  assemble w input_czi scale = (Ok a, tr) →
  convert_to_ims w input_czi output_path scale =
  ((export_ims_closed w output_path a).1,
   tr ++ (export_ims_closed w output_path a).2).
Proof.
  intros Hav Ha. rewrite convert_to_ims_assemble, Hav, Ha.
  cbv [mbind M_bind bind negb]. rewrite export_ims_unfold.
  by destruct (export_ims_closed w output_path a).
Qed.

Lemma convert_to_ims_abort e tr :
  IMARIS_AVAILABLE w = true →
  assemble w input_czi scale = (Raise e, tr) →
  convert_to_ims w input_czi output_path scale = (Raise e, tr).
Proof. intros Hav Ha. by rewrite convert_to_ims_assemble, Hav, Ha. Qed.

(** An event that is not the reader's can only come from the export part
    of [convert_to_ims], after a complete assembly. *)
Lemma convert_to_ims_event ev :
  reader_event ev = false →
  ev ∈ (convert_to_ims w input_czi output_path scale).2 ↔
  IMARIS_AVAILABLE w = true ∧
  ∃ a tr, assemble w input_czi scale = (Ok a, tr)
          ∧ ev ∈ (export_ims_closed w output_path a).2.
Proof.
  intros Hev. pose proof (assemble_reader_only w input_czi scale) as Hrd.
  destruct (IMARIS_AVAILABLE w) eqn:Hav.
  2:{ rewrite convert_to_ims_unavailable by done. split.
      - by intros ?%elem_of_nil.
      - by intros [? _]. }
  destruct (assemble w input_czi scale) as [[a|e] tr] eqn:Ha.
  - rewrite (convert_to_ims_run a tr) by done. cbn [snd] in *.
    rewrite elem_of_app. split.
    + intros [Hin|Hin]; [|by eauto].
      rewrite Forall_forall in Hrd. apply Hrd in Hin. congruence.
    + intros (_ & a' & tr' & [= <- <-] & Hin). by right.
  - rewrite (convert_to_ims_abort e tr) by done. cbn [snd] in *. split.
    + intros Hin. rewrite Forall_forall in Hrd. apply Hrd in Hin.
      congruence.
    + by intros (_ & a' & tr' & ? & _).
Qed.
End converters.

Lemma export_ims_no_reader w output_path a :
  Forall (λ ev, reader_event ev = false) (export_ims_closed w output_path a).2.
Proof.
  unfold export_ims_closed, failed, ask_events.
  destruct (voxel_sizes w) as [[[vx vy] vz]|]; [|by repeat constructor].
  destruct (world_converter_ok w), (world_copyblock_ok w),
           (world_finish_ok w); by repeat constructor.
Qed.

(** ** The assembly reads nothing but the source *)

Lemma assemble_open w input_czi scale czi :
  world_open w input_czi = Some czi →
  assemble w input_czi scale =
  ((assemble_opened czi scale).1,
   EvCziFile input_czi :: (assemble_opened czi scale).2).
Proof.
  intros Hopen.
  transitivity (((Ok czi, [EvCziFile input_czi]) : M CziFile)
                  ≫= λ czi, assemble_opened czi scale).
  { rewrite assemble_triples. unfold CziFile_open, external.
    by rewrite Hopen. }
  cbv [mbind M_bind bind]. by destruct (assemble_opened czi scale).
Qed.

Lemma extent_same_source scale czi1 czi2 label :
  same_source scale czi1 czi2 → extent czi1 label = extent czi2 label.
Proof. intros (Hd & Hs & _). unfold extent. by rewrite Hd, Hs. Qed.

Lemma assemble_opened_same_source scale czi1 czi2 :
  same_source scale czi1 czi2 →
  assemble_opened czi1 scale = assemble_opened czi2 scale.
Proof.
  intros Hsame. unfold assemble_opened.
  rewrite !(extent_same_source scale czi1 czi2) by done.
  destruct Hsame as (_ & _ & Hread).
  unfold read_mosaic. rewrite Hread.
  do 3 (apply bind_ext; intros ?). f_equal.
  apply for_each_ext. intros [[t c] z] arr.
  rewrite !store_plane_unfold. unfold decoded_plane. by rewrite Hread.
Qed.

(** ** Blocks and converter initialisations in a trace *)

Lemma copied_blocks_spec tr flat idx :
  (flat, idx) ∈ copied_blocks tr ↔ EvCopyBlock flat idx ∈ tr.
Proof.
  unfold copied_blocks. rewrite list_elem_of_omap. split.
  - intros (ev & Hin & Hev). destruct ev; try done. by injection Hev as -> ->.
  - intros Hin. by exists (EvCopyBlock flat idx).
Qed.

Lemma export_ims_copy_block w output_path a flat idx :
  EvCopyBlock flat idx ∈ (export_ims_closed w output_path a).2 →
  (flat, idx) = (ravel (as_arr a), ImageSize_default).
Proof.
  unfold export_ims_closed, failed, ask_events, converter_event, finish_event.
  destruct (voxel_sizes w) as [[[vx vy] vz]|]; cbn [snd].
  2:{ intros Hin. by repeat (apply elem_of_cons in Hin as [?|Hin]; [done|]);
        apply elem_of_nil in Hin. }
  destruct (world_converter_ok w), (world_copyblock_ok w),
           (world_finish_ok w); cbn [snd app]; intros Hin;
    repeat (apply elem_of_cons in Hin as [Heq|Hin];
            [try done; by injection Heq as -> ->|]);
    by apply elem_of_nil in Hin.
Qed.

(** ** What an event of the export tells *)

Lemma export_ims_finish w output_path a ev :
  ev ∈ (export_ims_closed w output_path a).2 →
  match ev with
  | EvFinish _ _ _ _ _ =>
      ∃ v, voxel_sizes w = Some v ∧ ev = finish_event w a v
           ∧ world_converter_ok w = true ∧ world_copyblock_ok w = true
  | EvDestroy =>
      ∃ v, voxel_sizes w = Some v ∧ world_finish_ok w = true
           ∧ finish_event w a v ∈ (export_ims_closed w output_path a).2
  | EvImageConverter _ _ _ _ _ _ _ _ _ =>
      ∃ v, voxel_sizes w = Some v ∧ ev = converter_event output_path a
  | _ => True
  end.
Proof.
  unfold export_ims_closed, failed, ask_events, converter_event.
  destruct (voxel_sizes w) as [[[vx vy] vz]|]; cbn [snd].
  2:{ intros Hin. repeat (apply elem_of_cons in Hin as [->|Hin]; [done|]).
      by apply elem_of_nil in Hin. }
  destruct (world_converter_ok w), (world_copyblock_ok w),
           (world_finish_ok w); cbn [snd app finish_event]; intros Hin;
    repeat (apply elem_of_cons in Hin as [->|Hin];
            [try done; eexists; split_and?; try done;
             repeat first [by left | right] |]);
    by apply elem_of_nil in Hin.
Qed.

Lemma reader_only_no_writer_calls tr :
  Forall (λ ev, reader_event ev = true) tr →
  converter_inits tr = [] ∧ copied_blocks tr = []
  ∧ Forall (λ ev, writer_event ev = false) tr.
Proof.
  induction 1 as [|ev tr Hev _ (IH1 & IH2 & IH3)]; [done|].
  unfold converter_inits, copied_blocks in *. cbn [omap list_omap].
  destruct ev; try done. all: rewrite IH1, IH2; by repeat constructor.
Qed.

Lemma assemble_volume w input_czi scale a tr :
  assemble w input_czi scale = (Ok a, tr) →
  volume (as_T a) (as_C a) (as_Z a) (as_Y a) (as_X a) (as_arr a)
  ∧ (0 < as_T a → 0 < as_C a → 0 < as_Z a → 0 < as_Y a ∧ 0 < as_X a).
Proof.
  intros Ha.
  destruct (assemble_inv _ _ _ _ _ Ha)
    as (czi & sample & Hopen & Hsample & HY & HX & HT & HC & HZ & Hall).
  destruct (assemble_Ok w input_czi scale czi sample (as_Y a) (as_X a))
    as (arr & Hrun & Hvol & _); try done.
  rewrite Ha in Hrun. injection Hrun as -> _. cbn [as_T as_C as_Z as_Y as_X
    as_arr] in *. split; [done|]. intros Ht Hc Hz.
  destruct (Hall 0 0 0) as [p Hp]; [lia..|]. unfold decoded_plane in Hp.
  destruct (czi_read_mosaic czi 0 0 0 scale) as [mos|]; [|done].
  apply first_plane_Ok in Hp as (_ & _ & Hyx). lia.
Qed.

Lemma blocks_along_same n : 0 < n → blocks_along n n = 1.
Proof.
  intros Hn. unfold blocks_along. symmetry.
  apply (Nat.div_unique (n + n - 1) n 1 (n - 1)); lia.
Qed.

Lemma convert_to_ometiff_imwrite w input_czi output_path scale
    path arr axes ome :
  EvImwrite path arr axes ome
    ∈ (convert_to_ometiff w input_czi output_path scale).2 →
  ∃ a tr, assemble w input_czi scale = (Ok a, tr) ∧ arr = as_arr a.
Proof.
  pose proof (assemble_reader_only w input_czi scale) as Hrd.
  rewrite Forall_forall in Hrd.
  destruct (assemble w input_czi scale) as [[a|e] tr] eqn:Ha.
  - rewrite (convert_to_ometiff_run _ _ _ _ a tr) by done. cbn [snd] in *.
    intros [Hin|Hin]%elem_of_app.
    + by apply Hrd in Hin.
    + apply list_elem_of_singleton in Hin. injection Hin as _ -> _ _. eauto.
  - rewrite (convert_to_ometiff_abort _ _ _ _ e tr) by done. cbn [snd] in *.
    intros Hin. by apply Hrd in Hin.
Qed.

(** * The properties *)

(** ** Assembly *)




(** C2.  The three nested loops visit the triples in the order of [triples]:
    [T] outermost, then [C], then [Z] innermost, so that [(t, c, z)] is the
    visit number [(t * C + c) * Z + z]; there are [T * C * Z] visits and no
    triple is visited twice.  After the sample read, the reads of a run whose
    reads all decode are exactly one read per visit, in that order, whatever
    the planes hold, in both converters.  A mosaic that comes back with a
    leading axis of extent one, [(1, Y, X)], is stored as the plane [(Y, X)]
    with the same samples. *)
Theorem assembler_visits_triples_in_order
    w input_czi output_path scale czi sample T C Z Y X :
  world_open w input_czi = Some czi →
  extent czi "T" = T → extent czi "C" = C → extent czi "Z" = Z →
  czi_read_mosaic czi 0 0 0 scale = Some sample →
  tuple_get (arr_shape sample) (-2) = Ok Y →
  tuple_get (arr_shape sample) (-1) = Ok X →
  (∀ t c z, t < T → c < C → z < Z →
     ∃ p, decoded_plane czi scale Y X t c z = Ok p) →
  ∃ arr,
    assemble w input_czi scale
    = (Ok (mk_assembled T C Z Y X arr),
       EvCziFile input_czi :: EvReadMosaic 0 0 0 scale ::
         ((λ '(t, c, z), EvReadMosaic t c z scale) <$> triples T C Z))
    ∧ (convert_to_ometiff w input_czi output_path scale).2
      = EvCziFile input_czi :: EvReadMosaic 0 0 0 scale ::
          ((λ '(t, c, z), EvReadMosaic t c z scale) <$> triples T C Z)
          ++ [EvImwrite output_path arr "TCZYX" true]
    ∧ (IMARIS_AVAILABLE w = true →
       ∃ tr, (convert_to_ims w input_czi output_path scale).2
             = EvCziFile input_czi :: EvReadMosaic 0 0 0 scale ::
                 ((λ '(t, c, z), EvReadMosaic t c z scale) <$> triples T C Z)
                 ++ tr
             ∧ Forall (λ ev, reader_event ev = false) tr)
    ∧ triples T C Z
      = flat_map (λ t, flat_map (λ c, (λ z, (t, c, z)) <$> seq 0 Z) (seq 0 C))
                 (seq 0 T)
    ∧ length (triples T C Z) = T * C * Z
    ∧ NoDup (triples T C Z)
    ∧ (∀ t c z, t < T → c < C → z < Z →
         triples T C Z !! ((t * C + c) * Z + z) = Some (t, c, z))
    ∧ (∀ t c z mos, t < T → c < C → z < Z →
         czi_read_mosaic czi t c z scale = Some mos →
         ndarray_wf mos → arr_shape mos = [1; Y; X] →
         first_plane Y X mos
         = Ok (mk_ndarray (arr_dtype mos) [Y; X] (arr_data mos))
         ∧ getitem3 arr t c z
           = Ok (stored (arr_dtype sample)
                   (mk_ndarray (arr_dtype mos) [Y; X] (arr_data mos)))).
Proof.
  intros Hopen <- <- <- Hsample HY HX Hall.
  destruct (assemble_Ok w input_czi scale czi sample Y X)
    as (arr & Hrun & [Hsh Hwf] & Hdt & Hget); try done.
  exists arr. split; [exact Hrun|].
  split; [by rewrite (convert_to_ometiff_run _ _ _ _ _ _ Hrun)|].
  split.
  { intros Hav. rewrite (convert_to_ims_run _ _ _ _ _ _ Hav Hrun).
    eexists. split; [done|]. apply export_ims_no_reader. }
  split; [done|]. split; [apply length_triples|].
  split; [apply NoDup_triples|]. split; [by apply lookup_triples|].
  intros t c z mos Ht Hc Hz Hmos Hmwf Hmsh.
  destruct (Hall t c z) as [p Hp]; try done.
  pose proof Hp as Hp'. unfold decoded_plane in Hp'. rewrite Hmos in Hp'.
  apply first_plane_Ok in Hp' as Hfacts. destruct Hfacts as (_ & _ & Hyx).
  rewrite first_plane_whole in Hp' by auto. injection Hp' as <-.
  split; [by apply first_plane_whole; auto|]. by apply Hget.
Qed.

Lemma assembler_visits_triples_in_order_witness :
  ∃ arr,
    assemble demo_world "in.czi" 1
    = (Ok (mk_assembled 1 2 3 2 2 arr),
       EvCziFile "in.czi" :: EvReadMosaic 0 0 0 1 ::
         ((λ '(t, c, z), EvReadMosaic t c z 1) <$> triples 1 2 3))
    ∧ (convert_to_ometiff demo_world "in.czi" "out.ome.tif" 1).2
      = EvCziFile "in.czi" :: EvReadMosaic 0 0 0 1 ::
          ((λ '(t, c, z), EvReadMosaic t c z 1) <$> triples 1 2 3)
          ++ [EvImwrite "out.ome.tif" arr "TCZYX" true]
    ∧ (IMARIS_AVAILABLE demo_world = true →
       ∃ tr, (convert_to_ims demo_world "in.czi" "out.ome.tif" 1).2
             = EvCziFile "in.czi" :: EvReadMosaic 0 0 0 1 ::
                 ((λ '(t, c, z), EvReadMosaic t c z 1) <$> triples 1 2 3)
                 ++ tr
             ∧ Forall (λ ev, reader_event ev = false) tr)
    ∧ triples 1 2 3
      = flat_map (λ t, flat_map (λ c, (λ z, (t, c, z)) <$> seq 0 3) (seq 0 2))
                 (seq 0 1)
    ∧ length (triples 1 2 3) = 1 * 2 * 3
    ∧ NoDup (triples 1 2 3)
    ∧ (∀ t c z, t < 1 → c < 2 → z < 3 →
         triples 1 2 3 !! ((t * 2 + c) * 3 + z) = Some (t, c, z))
    ∧ (∀ t c z mos, t < 1 → c < 2 → z < 3 →
         czi_read_mosaic demo_czi t c z 1 = Some mos →
         ndarray_wf mos → arr_shape mos = [1; 2; 2] →
         first_plane 2 2 mos
         = Ok (mk_ndarray (arr_dtype mos) [2; 2] (arr_data mos))
         ∧ getitem3 arr t c z
           = Ok (stored uint16
                   (mk_ndarray (arr_dtype mos) [2; 2] (arr_data mos)))).
Proof.
  apply (assembler_visits_triples_in_order demo_world "in.czi" "out.ome.tif"
           1 demo_czi (mk_ndarray uint16 [1; 2; 2] [0; 7; 8; 9]%Z)
           1 2 3 2 2).
  - reflexivity.
  - vm_compute; reflexivity.
  - vm_compute; reflexivity.
  - vm_compute; reflexivity.
  - reflexivity.
  - reflexivity.
  - reflexivity.
  - intros t c z _ _ _. eexists. vm_compute. reflexivity.
Defined.

(** C3.  The assembly is a function of the source data alone: two runs, in
    any two worlds, over handles that announce the same dimensions and sizes
    and decode the same mosaics at the given scale factor end the same way,
    with the same array, sample for sample, or with the same exception.
    Hence the arrays the two runs of [convert_to_ometiff] write are equal,
    and so are the blocks two runs of [convert_to_ims] copy. *)
Theorem assembly_deterministic
    w1 w2 input_czi output_path scale czi1 czi2 :
  world_open w1 input_czi = Some czi1 →
  world_open w2 input_czi = Some czi2 →
  same_source scale czi1 czi2 →
  assemble w1 input_czi scale = assemble w2 input_czi scale
  ∧ (convert_to_ometiff w1 input_czi output_path scale).2
    = (convert_to_ometiff w2 input_czi output_path scale).2
  ∧ ∀ b1 b2,
      b1 ∈ copied_blocks (convert_to_ims w1 input_czi output_path scale).2 →
      b2 ∈ copied_blocks (convert_to_ims w2 input_czi output_path scale).2 →
      b1 = b2.
Proof.
  intros Hopen1 Hopen2 Hsame.
  assert (assemble w1 input_czi scale = assemble w2 input_czi scale) as Heq.
  { rewrite (assemble_open w1 _ _ czi1), (assemble_open w2 _ _ czi2) by done.
    by rewrite (assemble_opened_same_source scale czi1 czi2). }
  split; [done|]. split.
  - destruct (assemble w2 input_czi scale) as [[a|e] tr] eqn:Ha.
    + by rewrite (convert_to_ometiff_run w1 _ _ _ a tr),
                 (convert_to_ometiff_run w2 _ _ _ a tr).
    + by rewrite (convert_to_ometiff_abort w1 _ _ _ e tr),
                 (convert_to_ometiff_abort w2 _ _ _ e tr).
  - intros [flat1 idx1] [flat2 idx2] Hb1 Hb2.
    apply copied_blocks_spec in Hb1, Hb2.
    apply convert_to_ims_event in Hb1 as (_ & a1 & tr1 & Ha1 & Hin1); [|done].
    apply convert_to_ims_event in Hb2 as (_ & a2 & tr2 & Ha2 & Hin2); [|done].
    rewrite Heq, Ha2 in Ha1. injection Ha1 as <- <-.
    apply export_ims_copy_block in Hin1, Hin2. congruence.
Qed.

Lemma assembly_deterministic_witness :
  assemble demo_world "in.czi" 1 = assemble demo_world_scale_one "in.czi" 1
  ∧ (convert_to_ometiff demo_world "in.czi" "out.ome.tif" 1).2
    = (convert_to_ometiff demo_world_scale_one "in.czi" "out.ome.tif" 1).2
  ∧ ∀ b1 b2,
      b1 ∈ copied_blocks (convert_to_ims demo_world "in.czi" "out.ome.tif" 1).2 →
      b2 ∈ copied_blocks
             (convert_to_ims demo_world_scale_one "in.czi" "out.ome.tif" 1).2 →
      b1 = b2.
Proof.
  apply (assembly_deterministic demo_world demo_world_scale_one "in.czi"
           "out.ome.tif" 1 demo_czi demo_czi_scale_one).
  - reflexivity.
  - reflexivity.
  - unfold same_source. split; [reflexivity|]. split; [reflexivity|].
    intros t c z. reflexivity.
Defined.

(** ** The Imaris export *)

(** C4.  Whenever [convert_to_ims] reaches [Finish], with [C] the probed
    channel count, the parameters name exactly the channels [0 .. C-1], channel
    [i] being ["Channel i"], and the colour list has [C] entries, entry [i]
    carrying as base colour the palette entry at position [i mod 4] of
    [(1,0,0), (0,1,0), (0,0,1), (1,1,0)] with alpha 1.  For [C ≤ 4] the
    colours are the first [C] of red, green, blue, yellow, without
    repetition. *)
Theorem channel_names_and_colors
    w input_czi output_path scale extents params time_infos color_infos
    adjust :
  EvFinish extents params time_infos color_infos adjust
    ∈ (convert_to_ims w input_czi output_path scale).2 →
  ∃ czi,
    world_open w input_czi = Some czi
    ∧ length color_infos = extent czi "C"
    ∧ (∀ i, params !! i =
            if decide (i < extent czi "C")
            then Some ("Channel " +:+ pretty i) else None)
    ∧ (∀ i, i < extent czi "C" →
         ∃ r g b,
           [(1, 0, 0); (0, 1, 0); (0, 0, 1); (1, 1, 0)]%Z !! (i mod 4)
             = Some (r, g, b)
           ∧ color_infos !! i = Some (mk_ColorInfo (Some (mk_Color r g b 1))))
    ∧ (extent czi "C" ≤ 4 →
       color_infos
       = take (extent czi "C")
           [mk_ColorInfo (Some (mk_Color 1 0 0 1));
            mk_ColorInfo (Some (mk_Color 0 1 0 1));
            mk_ColorInfo (Some (mk_Color 0 0 1 1));
            mk_ColorInfo (Some (mk_Color 1 1 0 1))]
       ∧ NoDup color_infos).
Proof.
  intros Hin.
  apply convert_to_ims_event in Hin as (_ & a & tr & Ha & Hin); [|done].
  apply export_ims_finish in Hin as ([[vx vy] vz] & _ & Hev & _).
  injection Hev as _ -> _ ->.
  destruct (assemble_inv _ _ _ _ _ Ha)
    as (czi & _ & Hopen & _ & _ & _ & _ & HC & _).
  exists czi. rewrite <- HC. clear HC.
  split; [done|]. split; [apply length_channel_colors|].
  split; [apply lookup_channel_names|]. split.
  - intros i Hi. rewrite lookup_channel_colors by done.
    unfold palette_color.
    assert (i mod 4 < 4) as Hlt by (by apply Nat.mod_upper_bound).
    change (length base_rgbs) with 4.
    destruct (i mod 4) as [|[|[|[|n]]]]; [by do 3 eexists..|lia].
  - intros HC. generalize dependent (as_C a). intros C HC.
    destruct C as [|[|[|[|[|C]]]]]; [| | | | |lia].
    all: split; [done|].
    all: repeat (constructor; [intros Hx;
           repeat (apply elem_of_cons in Hx as [?|Hx]; [done|]);
           by apply elem_of_nil in Hx|]).
    all: constructor.
Qed.

Lemma channel_names_and_colors_witness :
  ∃ czi,
    world_open demo_world "in.czi" = Some czi
    ∧ length (channel_colors 2) = extent czi "C"
    ∧ (∀ i, channel_names 2 !! i =
            if decide (i < extent czi "C")
            then Some ("Channel " +:+ pretty i) else None)
    ∧ (∀ i, i < extent czi "C" →
         ∃ r g b,
           [(1, 0, 0); (0, 1, 0); (0, 0, 1); (1, 1, 0)]%Z !! (i mod 4)
             = Some (r, g, b)
           ∧ channel_colors 2 !! i
             = Some (mk_ColorInfo (Some (mk_Color r g b 1))))
    ∧ (extent czi "C" ≤ 4 →
       channel_colors 2
       = take (extent czi "C")
           [mk_ColorInfo (Some (mk_Color 1 0 0 1));
            mk_ColorInfo (Some (mk_Color 0 1 0 1));
            mk_ColorInfo (Some (mk_Color 0 0 1 1));
            mk_ColorInfo (Some (mk_Color 1 1 0 1))]
       ∧ NoDup (channel_colors 2)).
Proof.
  apply (channel_names_and_colors demo_world "in.czi" "out.ims" 1
           (mk_ImageExtents 0 0 0 1 1 6) (channel_names 2) [1700000000%Z]
           (channel_colors 2) true).
  vm_compute. do 13 right. left.
Defined.

(** C5.  In a run of [convert_to_ims] whose assembly completes and whose
    voxel sizes are entered, the converter is initialised once, with image
    size [(x=X, y=Y, z=Z, c=C, t=T)] read off the assembled array of shape
    [(T, C, Z, Y, X)], a block size equal to the image size, so that the block
    grid has one block, and sample size 1 on every axis.  If the initialisation
    succeeds one block is copied: the buffer of the array in row-major order,
    where the sub-array [[t, c, z]] is the run of [Y * X] samples starting at
    [((t * C + c) * Z + z) * (Y * X)], at the block index whose coordinates
    are all zero. *)
Theorem imaris_single_block_geometry
    w input_czi output_path scale a tr v :
  IMARIS_AVAILABLE w = true →
  assemble w input_czi scale = (Ok a, tr) →
  voxel_sizes w = Some v →
  arr_shape (as_arr a) = [as_T a; as_C a; as_Z a; as_Y a; as_X a]
  ∧ converter_inits (convert_to_ims w input_czi output_path scale).2
    = [(mk_ImageSize (as_X a) (as_Y a) (as_Z a) (as_C a) (as_T a),
        mk_ImageSize 1 1 1 1 1,
        mk_ImageSize (as_X a) (as_Y a) (as_Z a) (as_C a) (as_T a),
        ["x"; "y"; "z"; "c"; "t"])]
  ∧ (0 < as_T a → 0 < as_C a → 0 < as_Z a →
     num_blocks (mk_ImageSize (as_X a) (as_Y a) (as_Z a) (as_C a) (as_T a))
                (mk_ImageSize (as_X a) (as_Y a) (as_Z a) (as_C a) (as_T a))
     = 1)
  ∧ copied_blocks (convert_to_ims w input_czi output_path scale).2
    = (if world_converter_ok w
       then [(ravel (as_arr a), mk_ImageSize 0 0 0 0 0)] else [])
  ∧ length (ravel (as_arr a))
    = as_T a * as_C a * as_Z a * (as_Y a * as_X a)
  ∧ ∀ t c z, t < as_T a → c < as_C a → z < as_Z a →
      getitem3 (as_arr a) t c z
      = Ok (mk_ndarray (arr_dtype (as_arr a)) [as_Y a; as_X a]
              (take (as_Y a * as_X a)
                 (drop (((t * as_C a + c) * as_Z a + z) * (as_Y a * as_X a))
                       (ravel (as_arr a))))).
Proof.
  intros Hav Ha Hv.
  destruct (assemble_volume _ _ _ _ _ Ha) as [[Hsh Hwf] Hpos].
  pose proof (assemble_reader_only w input_czi scale) as Hrd.
  rewrite Ha in Hrd. cbn [snd] in Hrd.
  apply reader_only_no_writer_calls in Hrd as (Hinit & Hcopy & _).
  rewrite (convert_to_ims_run _ _ _ _ _ _ Hav Ha). cbn [snd].
  unfold converter_inits, copied_blocks in *. rewrite !omap_app, Hinit, Hcopy.
  unfold export_ims_closed, failed. rewrite Hv. destruct v as [[vx vy] vz].
  split; [done|]. split.
  { by destruct (world_converter_ok w), (world_copyblock_ok w),
                (world_finish_ok w). }
  split.
  { intros Ht Hc Hz. destruct (Hpos Ht Hc Hz) as [Hy Hx].
    unfold num_blocks. cbn [sz_x sz_y sz_z sz_c sz_t].
    by rewrite !blocks_along_same. }
  split.
  { by destruct (world_converter_ok w), (world_copyblock_ok w),
                (world_finish_ok w). }
  split.
  { unfold ravel. unfold ndarray_wf in Hwf.
    by rewrite Hwf, Hsh, prod_shape_volume. }
  intros t c z Ht Hc Hz. unfold getitem3, ravel. rewrite Hsh.
  rewrite decide_True by done. cbn [offset3].
  by rewrite prod_shape_plane.
Qed.

Lemma imaris_single_block_geometry_witness :
  arr_shape (as_arr demo_assembled)
  = [as_T demo_assembled; as_C demo_assembled; as_Z demo_assembled;
     as_Y demo_assembled; as_X demo_assembled]
  ∧ converter_inits (convert_to_ims demo_world "in.czi" "out.ims" 1).2
    = [(mk_ImageSize (as_X demo_assembled) (as_Y demo_assembled)
          (as_Z demo_assembled) (as_C demo_assembled) (as_T demo_assembled),
        mk_ImageSize 1 1 1 1 1,
        mk_ImageSize (as_X demo_assembled) (as_Y demo_assembled)
          (as_Z demo_assembled) (as_C demo_assembled) (as_T demo_assembled),
        ["x"; "y"; "z"; "c"; "t"])]
  ∧ (0 < as_T demo_assembled → 0 < as_C demo_assembled →
     0 < as_Z demo_assembled →
     num_blocks
       (mk_ImageSize (as_X demo_assembled) (as_Y demo_assembled)
          (as_Z demo_assembled) (as_C demo_assembled) (as_T demo_assembled))
       (mk_ImageSize (as_X demo_assembled) (as_Y demo_assembled)
          (as_Z demo_assembled) (as_C demo_assembled) (as_T demo_assembled))
     = 1)
  ∧ copied_blocks (convert_to_ims demo_world "in.czi" "out.ims" 1).2
    = (if world_converter_ok demo_world
       then [(ravel (as_arr demo_assembled), mk_ImageSize 0 0 0 0 0)] else [])
  ∧ length (ravel (as_arr demo_assembled))
    = as_T demo_assembled * as_C demo_assembled * as_Z demo_assembled
      * (as_Y demo_assembled * as_X demo_assembled)
  ∧ ∀ t c z, t < as_T demo_assembled → c < as_C demo_assembled →
      z < as_Z demo_assembled →
      getitem3 (as_arr demo_assembled) t c z
      = Ok (mk_ndarray (arr_dtype (as_arr demo_assembled))
              [as_Y demo_assembled; as_X demo_assembled]
              (take (as_Y demo_assembled * as_X demo_assembled)
                 (drop (((t * as_C demo_assembled + c) * as_Z demo_assembled
                         + z)
                        * (as_Y demo_assembled * as_X demo_assembled))
                       (ravel (as_arr demo_assembled))))).
Proof.
  apply (imaris_single_block_geometry demo_world "in.czi" "out.ims" 1
           demo_assembled (assemble demo_world "in.czi" 1).2
           (0.5, 0.5, 2)%float).
  - reflexivity.
  - vm_compute; reflexivity.
  - reflexivity.
Defined.

(** C6.  When the start-up import of the Imaris writer did not succeed, so
    that [IMARIS_AVAILABLE] is false, [convert_to_ims] raises its
    "unavailable" error at once: the source file is not opened, no plane is
    read, no dialog is shown and no writer call is made. *)
Theorem imaris_unavailable_fails_fast w input_czi output_path scale :
  IMARIS_AVAILABLE w = false →
  convert_to_ims w input_czi output_path scale
  = (Raise (RuntimeError "PyImarisWriter unavailable; cannot write .ims"),
     []).
Proof.
  intros Hav. unfold convert_to_ims. rewrite Hav. cbn [negb].
  reflexivity.
Qed.

Lemma imaris_unavailable_fails_fast_witness :
  world_import_pim demo_world_no_imaris = None
  ∧ convert_to_ims demo_world_no_imaris "in.czi" "out.ims" 1
    = (Raise (RuntimeError "PyImarisWriter unavailable; cannot write .ims"),
       []).
Proof.
  split; [reflexivity|].
  apply (imaris_unavailable_fails_fast demo_world_no_imaris "in.czi"
           "out.ims" 1).
  reflexivity.
Defined.

(** C7.  If any of the three voxel-size dialogs is cancelled,
    [convert_to_ims] ends with an exception and makes no call to the Imaris
    writer: no converter is initialised and no block is copied.  When the
    assembly had completed, all three dialogs have been shown and the
    exception is the cancellation error; no value stands in for the
    cancelled entry. *)
Theorem cancelled_voxel_size_aborts w input_czi output_path scale :
  world_askfloat w "Voxel Size" "X (µm):" 1 = None
  ∨ world_askfloat w "Voxel Size" "Y (µm):" 1 = None
  ∨ world_askfloat w "Voxel Size" "Z (µm):" 1 = None →
  (∃ e, (convert_to_ims w input_czi output_path scale).1 = Raise e)
  ∧ Forall (λ ev, writer_event ev = false)
           (convert_to_ims w input_czi output_path scale).2
  ∧ ∀ a tr,
      IMARIS_AVAILABLE w = true →
      assemble w input_czi scale = (Ok a, tr) →
      convert_to_ims w input_czi output_path scale
      = (Raise (RuntimeError "Voxel size entry cancelled."),
         tr ++ [EvAskFloat "Voxel Size" "X (µm):" 1;
                EvAskFloat "Voxel Size" "Y (µm):" 1;
                EvAskFloat "Voxel Size" "Z (µm):" 1]).
Proof.
  intros Hcancel.
  assert (voxel_sizes w = None) as Hv.
  { unfold voxel_sizes.
    destruct Hcancel as [->| [->| ->]]; [done| |];
      repeat (destruct (world_askfloat w _ _ _)); done. }
  assert (∀ a tr, IMARIS_AVAILABLE w = true →
            assemble w input_czi scale = (Ok a, tr) →
            convert_to_ims w input_czi output_path scale
            = (Raise (RuntimeError "Voxel size entry cancelled."),
               tr ++ ask_events)) as Hrun.
  { intros a tr Hav Ha. rewrite (convert_to_ims_run _ _ _ _ _ _ Hav Ha).
    unfold export_ims_closed. by rewrite Hv. }
  split; [|split; [|done]].
  - destruct (IMARIS_AVAILABLE w) eqn:Hav.
    2:{ rewrite convert_to_ims_unavailable by done. by eexists. }
    destruct (assemble w input_czi scale) as [[a|e] tr] eqn:Ha.
    + rewrite (Hrun a tr) by done. by eexists.
    + rewrite (convert_to_ims_abort _ _ _ _ e tr) by done. by eexists.
  - pose proof (assemble_reader_only w input_czi scale) as Hrd.
    apply reader_only_no_writer_calls in Hrd as (_ & _ & Hrd).
    destruct (IMARIS_AVAILABLE w) eqn:Hav.
    2:{ by rewrite convert_to_ims_unavailable. }
    destruct (assemble w input_czi scale) as [[a|e] tr] eqn:Ha.
    + rewrite (Hrun a tr) by done. cbn [snd] in *.
      apply Forall_app. split; [done|]. by repeat constructor.
    + by rewrite (convert_to_ims_abort _ _ _ _ e tr).
Qed.

Lemma cancelled_voxel_size_aborts_witness :
  (∃ e, (convert_to_ims demo_world_cancelled "in.czi" "out.ims" 1).1
        = Raise e)
  ∧ Forall (λ ev, writer_event ev = false)
           (convert_to_ims demo_world_cancelled "in.czi" "out.ims" 1).2
  ∧ ∀ a tr,
      IMARIS_AVAILABLE demo_world_cancelled = true →
      assemble demo_world_cancelled "in.czi" 1 = (Ok a, tr) →
      convert_to_ims demo_world_cancelled "in.czi" "out.ims" 1
      = (Raise (RuntimeError "Voxel size entry cancelled."),
         tr ++ [EvAskFloat "Voxel Size" "X (µm):" 1;
                EvAskFloat "Voxel Size" "Y (µm):" 1;
                EvAskFloat "Voxel Size" "Z (µm):" 1]).
Proof.
  apply (cancelled_voxel_size_aborts demo_world_cancelled "in.czi"
           "out.ims" 1).
  right. left. reflexivity.
Defined.

(** C8, as stated, fails: a run in which the X dialog returns 0 and the Y
    dialog returns -2.5 initialises the writer all the same. *)
Lemma voxel_sizes_not_checked_positive : ¬ voxel_sizes_checked_positive.
Proof.
  intros Hclaim.
  destruct (Hclaim demo_world_nonpositive "in.czi" "out.ims" 1%float
              0%float (-2.5)%float 1%float) as (Hx & _).
  - vm_compute. discriminate.
  - reflexivity.
  - vm_compute in Hx. discriminate.
Qed.

(** C8, amended.  The voxel geometry used by the export consists of the three
    floats returned by the dialogs: a run initialises the writer exactly when
    Imaris support is available, the assembly has completed and none of the
    three dialogs was cancelled, whatever the sign of the values entered; and
    the extents handed to [Finish] are those values, unchanged, times the
    pixel counts. *)
Theorem writer_reached_iff_sizes_entered w input_czi output_path scale :
  (converter_inits (convert_to_ims w input_czi output_path scale).2 ≠ [] ↔
   IMARIS_AVAILABLE w = true
   ∧ (∃ a tr, assemble w input_czi scale = (Ok a, tr))
   ∧ ∃ vx vy vz,
       world_askfloat w "Voxel Size" "X (µm):" 1 = Some vx
       ∧ world_askfloat w "Voxel Size" "Y (µm):" 1 = Some vy
       ∧ world_askfloat w "Voxel Size" "Z (µm):" 1 = Some vz)
  ∧ ∀ extents params time_infos color_infos adjust,
      EvFinish extents params time_infos color_infos adjust
        ∈ (convert_to_ims w input_czi output_path scale).2 →
      ∃ a tr vx vy vz,
        assemble w input_czi scale = (Ok a, tr)
        ∧ world_askfloat w "Voxel Size" "X (µm):" 1 = Some vx
        ∧ world_askfloat w "Voxel Size" "Y (µm):" 1 = Some vy
        ∧ world_askfloat w "Voxel Size" "Z (µm):" 1 = Some vz
        ∧ extents = mk_ImageExtents 0 0 0 (vx * float_of_nat (as_X a))
                      (vy * float_of_nat (as_Y a))
                      (vz * float_of_nat (as_Z a)).
Proof.
  assert (∀ v, voxel_sizes w = Some v →
            world_askfloat w "Voxel Size" "X (µm):" 1 = Some v.1.1
            ∧ world_askfloat w "Voxel Size" "Y (µm):" 1 = Some v.1.2
            ∧ world_askfloat w "Voxel Size" "Z (µm):" 1 = Some v.2) as Hans.
  { intros v. unfold voxel_sizes.
    destruct (world_askfloat w _ "X (µm):" _),
             (world_askfloat w _ "Y (µm):" _),
             (world_askfloat w _ "Z (µm):" _); try done.
    by intros [= <-]. }
  split; [split|].
  - intros Hinit.
    destruct (converter_inits _) as [|g gs] eqn:Hg; [done|]. clear Hinit.
    assert (g ∈ converter_inits
                  (convert_to_ims w input_czi output_path scale).2) as Hin
      by (rewrite Hg; left).
    unfold converter_inits in Hin.
    apply list_elem_of_omap in Hin as (ev & Hin & Hev).
    destruct ev; try done.
    apply convert_to_ims_event in Hin as (Hav & a & tr & Ha & Hin); [|done].
    apply export_ims_finish in Hin as (v & Hv & _).
    destruct (Hans v Hv) as (? & ? & ?). split; [done|]. split; eauto.
  - intros (Hav & (a & tr & Ha) & vx & vy & vz & Hx & Hy & Hz).
    rewrite (convert_to_ims_run _ _ _ _ _ _ Hav Ha). cbn [snd].
    unfold converter_inits. rewrite omap_app.
    unfold export_ims_closed, voxel_sizes, failed. rewrite Hx, Hy, Hz.
    intros Hnil. apply app_eq_nil in Hnil as [_ Hnil].
    by destruct (world_converter_ok w), (world_copyblock_ok w),
                (world_finish_ok w).
  - intros extents params time_infos color_infos adjust Hin.
    apply convert_to_ims_event in Hin as (Hav & a & tr & Ha & Hin); [|done].
    apply export_ims_finish in Hin as ([[vx vy] vz] & Hv & Hev & _).
    destruct (Hans _ Hv) as (? & ? & ?). injection Hev as -> _.
    by exists a, tr, vx, vy, vz.
Qed.

(** C9.  In [convert_to_ims], [Destroy] is called if and only if [Finish]
    was called and returned normally.  When [Finish] raises, the converter
    is not released. *)
Theorem destroy_iff_finish_succeeds w input_czi output_path scale :
  EvDestroy ∈ (convert_to_ims w input_czi output_path scale).2 ↔
  (∃ extents params time_infos color_infos adjust,
     EvFinish extents params time_infos color_infos adjust
       ∈ (convert_to_ims w input_czi output_path scale).2)
  ∧ world_finish_ok w = true.
Proof.
  split.
  - intros Hin.
    apply convert_to_ims_event in Hin as (Hav & a & tr & Ha & Hin); [|done].
    apply export_ims_finish in Hin as ([[vx vy] vz] & Hv & Hok & Hfin).
    split; [|done]. do 5 eexists.
    apply convert_to_ims_event; [done|]. split; [done|].
    exists a, tr. split; [done|]. exact Hfin.
  - intros ((extents & params & time_infos & color_infos & adjust & Hin) & Hok).
    apply convert_to_ims_event in Hin as (Hav & a & tr & Ha & Hin); [|done].
    apply export_ims_finish in Hin as (v & Hv & _ & Hconv & Hcopy).
    apply convert_to_ims_event; [done|]. split; [done|].
    exists a, tr. split; [done|].
    unfold export_ims_closed. rewrite Hv, Hconv, Hcopy, Hok. cbn [snd].
    apply elem_of_app. right. do 3 right. left.
Qed.

(** ** Missing dimensions *)

Lemma convert_to_ims_inits w input_czi output_path scale a tr v :
  IMARIS_AVAILABLE w = true →
  assemble w input_czi scale = (Ok a, tr) →
  voxel_sizes w = Some v →
  converter_inits (convert_to_ims w input_czi output_path scale).2
  = [(mk_ImageSize (as_X a) (as_Y a) (as_Z a) (as_C a) (as_T a),
      mk_ImageSize 1 1 1 1 1,
      mk_ImageSize (as_X a) (as_Y a) (as_Z a) (as_C a) (as_T a),
      ["x"; "y"; "z"; "c"; "t"])].
Proof.
  intros Hav Ha Hv.
  pose proof (assemble_reader_only w input_czi scale) as Hrd.
  rewrite Ha in Hrd. cbn [snd] in Hrd.
  apply reader_only_no_writer_calls in Hrd as (Hinit & _ & _).
  rewrite (convert_to_ims_run _ _ _ _ _ _ Hav Ha). cbn [snd].
  unfold converter_inits in *. rewrite !omap_app, Hinit.
  unfold export_ims_closed, failed. rewrite Hv. destruct v as [[vx vy] vz].
  by destruct (world_converter_ok w), (world_copyblock_ok w),
              (world_finish_ok w).
Qed.

(** C10.  A label among T, C, Z that the dimension string of the source does
    not contain has extent 1 in both converters.  On every source whose reads
    decode, whichever of the three labels its dimension string lacks, the
    assembly returns an array with the five axes [(T, C, Z, Y, X)] in which
    the axis of an absent label has size 1.  [convert_to_ometiff] hands this
    very array to [imwrite]; [convert_to_ims], once the voxel sizes are
    entered, declares an image with these extents, 1 for an absent label. *)
Theorem missing_axis_has_extent_one
    w input_czi output_path scale czi sample Y X :
  world_open w input_czi = Some czi →
  czi_read_mosaic czi 0 0 0 scale = Some sample →
  tuple_get (arr_shape sample) (-2) = Ok Y →
  tuple_get (arr_shape sample) (-1) = Ok X →
  (∀ t c z, t < extent czi "T" → c < extent czi "C" → z < extent czi "Z" →
     ∃ p, decoded_plane czi scale Y X t c z = Ok p) →
  (∀ label, label ∈ ["T"; "C"; "Z"] → label ∉ czi_dims czi →
     dict_get (dict_zip (czi_dims czi) (czi_size czi)) label 1 = 1)
  ∧ ∃ arr tr,
      assemble w input_czi scale
      = (Ok (mk_assembled (extent czi "T") (extent czi "C") (extent czi "Z")
                          Y X arr), tr)
      ∧ arr_shape arr
        = [dict_get (dict_zip (czi_dims czi) (czi_size czi)) "T" 1;
           dict_get (dict_zip (czi_dims czi) (czi_size czi)) "C" 1;
           dict_get (dict_zip (czi_dims czi) (czi_size czi)) "Z" 1; Y; X]
      ∧ length (arr_shape arr) = 5
      ∧ (("T" ∉ czi_dims czi) → arr_shape arr !! 0 = Some 1)
      ∧ (("C" ∉ czi_dims czi) → arr_shape arr !! 1 = Some 1)
      ∧ (("Z" ∉ czi_dims czi) → arr_shape arr !! 2 = Some 1)
      ∧ convert_to_ometiff w input_czi output_path scale
        = (if world_imwrite_ok w
           then Ok tt else Raise (LibraryError "tifffile"),
           tr ++ [EvImwrite output_path arr "TCZYX" true])
      ∧ (IMARIS_AVAILABLE w = true → ∀ v, voxel_sizes w = Some v →
         ∃ image_size,
           converter_inits (convert_to_ims w input_czi output_path scale).2
           = [(image_size, mk_ImageSize 1 1 1 1 1, image_size,
               ["x"; "y"; "z"; "c"; "t"])]
           ∧ image_size
             = mk_ImageSize X Y
                 (dict_get (dict_zip (czi_dims czi) (czi_size czi)) "Z" 1)
                 (dict_get (dict_zip (czi_dims czi) (czi_size czi)) "C" 1)
                 (dict_get (dict_zip (czi_dims czi) (czi_size czi)) "T" 1)
           ∧ (("T" ∉ czi_dims czi) → sz_t image_size = 1)
           ∧ (("C" ∉ czi_dims czi) → sz_c image_size = 1)
           ∧ (("Z" ∉ czi_dims czi) → sz_z image_size = 1)).
Proof.
  intros Hopen Hsample HY HX Hall.
  split; [intros label _ Habsent; by apply extent_absent|].
  destruct (assemble_Ok w input_czi scale czi sample Y X)
    as (arr & Hrun & [Hsh Hwf] & _ & _); try done.
  exists arr. eexists. split; [exact Hrun|].
  split; [exact Hsh|]. split; [by rewrite Hsh|].
  split; [intros Habs; by rewrite Hsh, (extent_absent _ _ Habs)|].
  split; [intros Habs; by rewrite Hsh, (extent_absent _ _ Habs)|].
  split; [intros Habs; by rewrite Hsh, (extent_absent _ _ Habs)|].
  split; [by rewrite (convert_to_ometiff_run _ _ _ _ _ _ Hrun)|].
  intros Hav v Hv. eexists. split.
  { by rewrite (convert_to_ims_inits _ _ _ _ _ _ _ Hav Hrun Hv). }
  cbn [as_X as_Y as_Z as_C as_T sz_t sz_c sz_z].
  split; [done|].
  split_and!; intros Habs; by apply extent_absent.
Qed.

Lemma missing_axis_has_extent_one_witness :
  ((∀ label, label ∈ ["T"; "C"; "Z"] → label ∉ czi_dims demo_czi →
      dict_get (dict_zip (czi_dims demo_czi) (czi_size demo_czi)) label 1 = 1)
   ∧ ∃ arr tr,
       assemble demo_world "in.czi" 1
       = (Ok (mk_assembled (extent demo_czi "T") (extent demo_czi "C")
                 (extent demo_czi "Z") 2 2 arr), tr)
       ∧ arr_shape arr
         = [dict_get (dict_zip (czi_dims demo_czi) (czi_size demo_czi)) "T" 1;
            dict_get (dict_zip (czi_dims demo_czi) (czi_size demo_czi)) "C" 1;
            dict_get (dict_zip (czi_dims demo_czi) (czi_size demo_czi)) "Z" 1;
            2; 2]
       ∧ length (arr_shape arr) = 5
       ∧ (("T" ∉ czi_dims demo_czi) → arr_shape arr !! 0 = Some 1)
       ∧ (("C" ∉ czi_dims demo_czi) → arr_shape arr !! 1 = Some 1)
       ∧ (("Z" ∉ czi_dims demo_czi) → arr_shape arr !! 2 = Some 1)
       ∧ convert_to_ometiff demo_world "in.czi" "out.ome.tif" 1
         = (if world_imwrite_ok demo_world
            then Ok tt else Raise (LibraryError "tifffile"),
            tr ++ [EvImwrite "out.ome.tif" arr "TCZYX" true])
       ∧ (IMARIS_AVAILABLE demo_world = true →
          ∀ v, voxel_sizes demo_world = Some v →
          ∃ image_size,
            converter_inits
              (convert_to_ims demo_world "in.czi" "out.ome.tif" 1).2
            = [(image_size, mk_ImageSize 1 1 1 1 1, image_size,
                ["x"; "y"; "z"; "c"; "t"])]
            ∧ image_size
              = mk_ImageSize 2 2
                  (dict_get (dict_zip (czi_dims demo_czi) (czi_size demo_czi))
                            "Z" 1)
                  (dict_get (dict_zip (czi_dims demo_czi) (czi_size demo_czi))
                            "C" 1)
                  (dict_get (dict_zip (czi_dims demo_czi) (czi_size demo_czi))
                            "T" 1)
            ∧ (("T" ∉ czi_dims demo_czi) → sz_t image_size = 1)
            ∧ (("C" ∉ czi_dims demo_czi) → sz_c image_size = 1)
            ∧ (("Z" ∉ czi_dims demo_czi) → sz_z image_size = 1)))
  ∧ ("T" ∉ czi_dims demo_czi)
  ∧ (∃ arr tr,
       assemble demo_world "in.czi" 1
       = (Ok (mk_assembled 1 2 3 2 2 arr), tr)
       ∧ arr_shape arr = [1; 2; 3; 2; 2]
       ∧ convert_to_ometiff demo_world "in.czi" "out.ome.tif" 1
         = (Ok tt, tr ++ [EvImwrite "out.ome.tif" arr "TCZYX" true]))
  ∧ converter_inits (convert_to_ims demo_world "in.czi" "out.ome.tif" 1).2
    = [(mk_ImageSize 2 2 3 2 1, mk_ImageSize 1 1 1 1 1,
        mk_ImageSize 2 2 3 2 1, ["x"; "y"; "z"; "c"; "t"])].
Proof.
  assert ("T" ∉ czi_dims demo_czi) as Habsent.
  { cbn [czi_dims demo_czi]. intros Hin.
    repeat (apply elem_of_cons in Hin as [Heq|Hin]; [discriminate Heq|]).
    by apply elem_of_nil in Hin. }
  cut ((∀ label, label ∈ ["T"; "C"; "Z"] → label ∉ czi_dims demo_czi →
      dict_get (dict_zip (czi_dims demo_czi) (czi_size demo_czi)) label 1 = 1)
   ∧ ∃ arr tr,
       assemble demo_world "in.czi" 1
       = (Ok (mk_assembled (extent demo_czi "T") (extent demo_czi "C")
                 (extent demo_czi "Z") 2 2 arr), tr)
       ∧ arr_shape arr
         = [dict_get (dict_zip (czi_dims demo_czi) (czi_size demo_czi)) "T" 1;
            dict_get (dict_zip (czi_dims demo_czi) (czi_size demo_czi)) "C" 1;
            dict_get (dict_zip (czi_dims demo_czi) (czi_size demo_czi)) "Z" 1;
            2; 2]
       ∧ length (arr_shape arr) = 5
       ∧ (("T" ∉ czi_dims demo_czi) → arr_shape arr !! 0 = Some 1)
       ∧ (("C" ∉ czi_dims demo_czi) → arr_shape arr !! 1 = Some 1)
       ∧ (("Z" ∉ czi_dims demo_czi) → arr_shape arr !! 2 = Some 1)
       ∧ convert_to_ometiff demo_world "in.czi" "out.ome.tif" 1
         = (if world_imwrite_ok demo_world
            then Ok tt else Raise (LibraryError "tifffile"),
            tr ++ [EvImwrite "out.ome.tif" arr "TCZYX" true])
       ∧ (IMARIS_AVAILABLE demo_world = true →
          ∀ v, voxel_sizes demo_world = Some v →
          ∃ image_size,
            converter_inits
              (convert_to_ims demo_world "in.czi" "out.ome.tif" 1).2
            = [(image_size, mk_ImageSize 1 1 1 1 1, image_size,
                ["x"; "y"; "z"; "c"; "t"])]
            ∧ image_size
              = mk_ImageSize 2 2
                  (dict_get (dict_zip (czi_dims demo_czi) (czi_size demo_czi))
                            "Z" 1)
                  (dict_get (dict_zip (czi_dims demo_czi) (czi_size demo_czi))
                            "C" 1)
                  (dict_get (dict_zip (czi_dims demo_czi) (czi_size demo_czi))
                            "T" 1)
            ∧ (("T" ∉ czi_dims demo_czi) → sz_t image_size = 1)
            ∧ (("C" ∉ czi_dims demo_czi) → sz_c image_size = 1)
            ∧ (("Z" ∉ czi_dims demo_czi) → sz_z image_size = 1))).
  - intros Hthm. split; [exact Hthm|]. split; [exact Habsent|].
    destruct Hthm as (_ & arr & tr & Hrun & Hsh & _ & _ & _ & _ & Hwrite
                      & Hims).
    split.
    + exists arr, tr. split; [exact Hrun|]. split; [exact Hsh|exact Hwrite].
    + destruct (Hims eq_refl _ eq_refl) as (image_size & -> & -> & _).
      reflexivity.
  - apply (missing_axis_has_extent_one demo_world "in.czi" "out.ome.tif" 1
             demo_czi (mk_ndarray uint16 [1; 2; 2] [0; 7; 8; 9]%Z) 2 2).
    + reflexivity.
    + reflexivity.
    + reflexivity.
    + reflexivity.
    + intros t c z _ _ _. eexists. vm_compute. reflexivity.
Defined.

(** ** Runs of the demo source *)

Example finish_failure_skips_destroy :
  convert_to_ims demo_world_finish_fails "in.czi" "out.ims" 1
  = (Raise (LibraryError "PyImarisWriter"),
     (assemble demo_world_finish_fails "in.czi" 1).2
     ++ ask_events
     ++ [converter_event "out.ims" demo_assembled;
         EvCopyBlock (ravel (as_arr demo_assembled)) ImageSize_default;
         finish_event demo_world_finish_fails demo_assembled (1, 1, 1)%float]).
Proof. vm_compute. reflexivity. Qed.

Example nonpositive_sizes_are_exported :
  (convert_to_ims demo_world_nonpositive "in.czi" "out.ims" 1).1 = Ok tt
  ∧ finish_event demo_world_nonpositive demo_assembled (0, -2.5, 1)%float
    ∈ (convert_to_ims demo_world_nonpositive "in.czi" "out.ims" 1).2.
Proof. split; [vm_compute; reflexivity|]. vm_compute. do 13 right. left. Qed.

Example mixed_types_are_converted :
  setitem3 (np_zeros [1; 1; 1; 1; 2] uint8) 0 0 0
           (mk_ndarray uint16 [1; 2] [300; 5]%Z)
  = Ok (mk_ndarray uint8 [1; 1; 1; 1; 2] [44; 5]%Z).
Proof. vm_compute. reflexivity. Qed.

(** * Further properties of the code *)

(** ** How the assembly fails *)

Lemma triples_nil T C Z : T = 0 ∨ C = 0 ∨ Z = 0 → triples T C Z = [].
Proof.
  intros Hzero. apply length_zero_iff_nil. rewrite length_triples.
  destruct Hzero as [->|[->| ->]]; lia.
Qed.

Lemma triples_head T C Z :
  0 < T → 0 < C → 0 < Z → ∃ l, triples T C Z = (0, 0, 0) :: l.
Proof.
  intros HT HC HZ. pose proof (lookup_triples T C Z 0 0 0 HT HC HZ) as Hl.
  destruct (triples T C Z) as [|x l]; [done|]. injection Hl as ->. eauto.
Qed.

Lemma assemble_opened_spec czi scale sample Y X :
  czi_read_mosaic czi 0 0 0 scale = Some sample →
  tuple_get (arr_shape sample) (-2) = Ok Y →
  tuple_get (arr_shape sample) (-1) = Ok X →
  assemble_opened czi scale =
  (((Ok sample, [EvReadMosaic 0 0 0 scale]) : M ndarray) ≫= λ _,
   for_each (triples (extent czi "T") (extent czi "C") (extent czi "Z"))
     (np_zeros [extent czi "T"; extent czi "C"; extent czi "Z"; Y; X]
               (arr_dtype sample))
     (store_plane czi scale Y X) ≫= λ arr,
   mret (mk_assembled (extent czi "T") (extent czi "C") (extent czi "Z")
                      Y X arr)).
Proof.
  intros Hsample HY HX. unfold assemble_opened, read_mosaic, external.
  rewrite Hsample. cbv [mbind M_bind bind lift]. rewrite HY, HX.
  by destruct (for_each _ _ _) as [[?|?] ?].
Qed.

(** The loop up to its first triple that does not decode. *)
Lemma fill_first_failure czi scale T C Z Y X l1 t c z l2 arr e :
  volume T C Z Y X arr →
  (∀ t' c' z', (t', c', z') ∈ l1 →
     t' < T ∧ c' < C ∧ z' < Z
     ∧ ∃ p, decoded_plane czi scale Y X t' c' z' = Ok p) →
  decoded_plane czi scale Y X t c z = Raise e →
  for_each (l1 ++ (t, c, z) :: l2) arr (store_plane czi scale Y X)
  = (Raise e, read_event scale <$> (l1 ++ [(t, c, z)])).
Proof.
  intros Hvol Hall Hfail.
  destruct (fill_Ok czi scale T C Z Y X l1 arr Hvol Hall)
    as (arr1 & Hloop & _).
  rewrite for_each_app, Hloop. cbv [mbind M_bind bind]. cbn [for_each].
  rewrite store_plane_unfold, Hfail. cbv [mbind M_bind bind].
  by rewrite fmap_app.
Qed.

Lemma tuple_get_short {A} (l : list A) :
  length l < 2 → tuple_get l (-2) = Raise IndexError.
Proof.
  intros Hlen. unfold tuple_get.
  destruct l as [|x [|y l]]; simpl in *; [done|done|lia].
Qed.

(** ** Which exceptions the converters raise *)

Lemma for_each_raise {A S} (xs : list A) (s : S) (body : A → S → M S) e tr :
  for_each xs s body = (Raise e, tr) →
  ∃ x s', x ∈ xs ∧ (body x s').1 = Raise e.
Proof.
  revert s tr. induction xs as [|x xs IH]; intros s tr; [done|].
  cbn [for_each]. cbv [mbind M_bind bind].
  destruct (body x s) as [[s1|e1] tr1] eqn:Hb.
  - destruct (for_each xs s1 body) as [r tr2] eqn:Hloop. intros [= -> <-].
    destruct (IH _ _ Hloop) as (x' & s' & Hin & Hx').
    exists x', s'. split; [by right|done].
  - intros [= <- <-]. exists x, s. split; [by left|]. rewrite Hb. reflexivity.
Qed.

Lemma store_plane_errors czi scale Y X tcz arr e :
  (store_plane czi scale Y X tcz arr).1 = Raise e → numpy_or_reader_error e.
Proof.
  destruct tcz as [[t c] z]. rewrite store_plane_unfold. cbn [fst].
  unfold decoded_plane, first_plane, reshape_m1, getitem0, setitem3,
    numpy_or_reader_error.
  repeat case_match; intros; simplify_eq; eauto.
Qed.

Lemma tuple_get_error {A} (l : list A) i e :
  tuple_get l i = Raise e → e = IndexError.
Proof. unfold tuple_get. repeat case_match; by intros [= <-]. Qed.

Lemma assemble_errors w input_czi scale e :
  (assemble w input_czi scale).1 = Raise e → numpy_or_reader_error e.
Proof.
  unfold numpy_or_reader_error.
  destruct (world_open w input_czi) as [czi|] eqn:Hopen.
  2:{ unfold assemble, CziFile_open, external. rewrite Hopen.
      intros [= <-]. by left. }
  rewrite (assemble_open _ _ _ czi Hopen). cbn [fst].
  unfold assemble_opened, read_mosaic, external.
  cbv [mbind M_bind bind lift mret M_ret ret].
  destruct (czi_read_mosaic czi 0 0 0 scale) as [sample|];
    [|intros [= <-]; by left].
  destruct (tuple_get (arr_shape sample) (-2)) as [Y|e1] eqn:HY.
  2:{ apply tuple_get_error in HY as ->. intros [= <-]. eauto. }
  destruct (tuple_get (arr_shape sample) (-1)) as [X|e1] eqn:HX.
  2:{ apply tuple_get_error in HX as ->. intros [= <-]. eauto. }
  destruct (for_each _ _ _) as [[arr|e1] tr] eqn:Hloop; [done|].
  intros [= <-]. apply for_each_raise in Hloop as (x & s' & _ & Hx).
  by apply store_plane_errors in Hx.
Qed.

(** X1.  The first triple, in visiting order, whose mosaic cannot be read
    or does not hold a [(Y, X)] plane ends the conversion: the triples before
    it and that triple have been read, none after it; both converters raise
    the exception of that step, and neither writes anything nor asks for
    voxel sizes. *)
Theorem assembly_stops_at_first_failure
    w input_czi output_path scale czi sample Y X l1 t c z l2 e :
  world_open w input_czi = Some czi →
  czi_read_mosaic czi 0 0 0 scale = Some sample →
  tuple_get (arr_shape sample) (-2) = Ok Y →
  tuple_get (arr_shape sample) (-1) = Ok X →
  triples (extent czi "T") (extent czi "C") (extent czi "Z")
    = l1 ++ (t, c, z) :: l2 →
  (∀ t' c' z', (t', c', z') ∈ l1 →
     ∃ p, decoded_plane czi scale Y X t' c' z' = Ok p) →
  decoded_plane czi scale Y X t c z = Raise e →
  convert_to_ometiff w input_czi output_path scale
  = (Raise e,
     EvCziFile input_czi :: EvReadMosaic 0 0 0 scale ::
       ((λ '(t, c, z), EvReadMosaic t c z scale) <$> l1)
       ++ [EvReadMosaic t c z scale])
  ∧ (IMARIS_AVAILABLE w = true →
     convert_to_ims w input_czi output_path scale
     = (Raise e,
        EvCziFile input_czi :: EvReadMosaic 0 0 0 scale ::
          ((λ '(t, c, z), EvReadMosaic t c z scale) <$> l1)
          ++ [EvReadMosaic t c z scale])).
Proof.
  intros Hopen Hsample HY HX Hsplit Hall Hfail.
  assert (assemble w input_czi scale
          = (Raise e,
             EvCziFile input_czi :: EvReadMosaic 0 0 0 scale ::
               (read_event scale <$> l1) ++ [EvReadMosaic t c z scale]))
    as Ha.
  { rewrite (assemble_open _ _ _ czi Hopen).
    rewrite (assemble_opened_spec czi scale sample Y X) by done.
    rewrite Hsplit.
    rewrite (fill_first_failure czi scale (extent czi "T") (extent czi "C")
               (extent czi "Z") Y X l1 t c z l2 _ e).
    - cbv [mbind M_bind bind]. cbn [fst snd]. by rewrite fmap_app.
    - apply np_zeros_volume.
    - intros t' c' z' Hin.
      assert ((t', c', z')
                ∈ triples (extent czi "T") (extent czi "C") (extent czi "Z"))
        as Hin' by (rewrite Hsplit; apply elem_of_app; by left).
      apply elem_of_triples in Hin' as (? & ? & ?). split_and!; auto.
    - done. }
  split.
  - by apply convert_to_ometiff_abort.
  - intros Hav. by apply convert_to_ims_abort.
Qed.

Lemma assembly_stops_at_first_failure_witness :
  convert_to_ometiff demo_world_bad_slice "in.czi" "out.ome.tif" 1
  = (Raise (LibraryError "aicspylibczi"),
     EvCziFile "in.czi" :: EvReadMosaic 0 0 0 1 ::
       ((λ '(t, c, z), EvReadMosaic t c z 1)
          <$> [(0, 0, 0); (0, 0, 1); (0, 0, 2); (0, 1, 0)])
       ++ [EvReadMosaic 0 1 1 1])
  ∧ (IMARIS_AVAILABLE demo_world_bad_slice = true →
     convert_to_ims demo_world_bad_slice "in.czi" "out.ome.tif" 1
     = (Raise (LibraryError "aicspylibczi"),
        EvCziFile "in.czi" :: EvReadMosaic 0 0 0 1 ::
          ((λ '(t, c, z), EvReadMosaic t c z 1)
             <$> [(0, 0, 0); (0, 0, 1); (0, 0, 2); (0, 1, 0)])
          ++ [EvReadMosaic 0 1 1 1])).
Proof.
  apply (assembly_stops_at_first_failure demo_world_bad_slice "in.czi"
           "out.ome.tif" 1 demo_czi_bad_slice
           (mk_ndarray uint16 [1; 2; 2] [0; 7; 8; 9]%Z) 2 2
           [(0, 0, 0); (0, 0, 1); (0, 0, 2); (0, 1, 0)] 0 1 1 [(0, 1, 2)]
           (LibraryError "aicspylibczi")).
  - reflexivity.
  - reflexivity.
  - reflexivity.
  - reflexivity.
  - vm_compute; reflexivity.
  - intros t c z Hin.
    repeat (apply elem_of_cons in Hin as [Heq|Hin];
            [injection Heq as -> -> ->; eexists; vm_compute; reflexivity|]).
    by apply elem_of_nil in Hin.
  - reflexivity.
Defined.

(** X2.  When one of the extents T, C, Z is zero the loops do not run: after
    the sample read nothing more is read, and the assembled array has the
    announced shape and no element at all.  [convert_to_ometiff] calls
    [imwrite] once, with this empty array, and [convert_to_ims] goes on to
    the export with it.  Whether [imwrite] accepts an empty array is for
    tifffile to say and is not stated here. *)
Theorem empty_axis_reads_nothing
    w input_czi output_path scale czi sample Y X :
  world_open w input_czi = Some czi →
  czi_read_mosaic czi 0 0 0 scale = Some sample →
  tuple_get (arr_shape sample) (-2) = Ok Y →
  tuple_get (arr_shape sample) (-1) = Ok X →
  extent czi "T" = 0 ∨ extent czi "C" = 0 ∨ extent czi "Z" = 0 →
  assemble w input_czi scale
  = (Ok (mk_assembled (extent czi "T") (extent czi "C") (extent czi "Z") Y X
           (mk_ndarray (arr_dtype sample)
              [extent czi "T"; extent czi "C"; extent czi "Z"; Y; X] [])),
     [EvCziFile input_czi; EvReadMosaic 0 0 0 scale])
  ∧ (convert_to_ometiff w input_czi output_path scale).2
    = [EvCziFile input_czi; EvReadMosaic 0 0 0 scale;
       EvImwrite output_path
         (mk_ndarray (arr_dtype sample)
            [extent czi "T"; extent czi "C"; extent czi "Z"; Y; X] [])
         "TCZYX" true]
  ∧ (IMARIS_AVAILABLE w = true →
     (convert_to_ims w input_czi output_path scale).2
     = [EvCziFile input_czi; EvReadMosaic 0 0 0 scale]
       ++ (export_ims w output_path
             (mk_assembled (extent czi "T") (extent czi "C") (extent czi "Z")
                Y X
                (mk_ndarray (arr_dtype sample)
                   [extent czi "T"; extent czi "C"; extent czi "Z"; Y; X]
                   []))).2).
Proof.
  intros Hopen Hsample HY HX Hzero.
  assert (assemble w input_czi scale
          = (Ok (mk_assembled (extent czi "T") (extent czi "C")
                   (extent czi "Z") Y X
                   (mk_ndarray (arr_dtype sample)
                      [extent czi "T"; extent czi "C"; extent czi "Z"; Y; X]
                      [])),
             [EvCziFile input_czi; EvReadMosaic 0 0 0 scale])) as Ha.
  { rewrite (assemble_open _ _ _ czi Hopen).
    rewrite (assemble_opened_spec czi scale sample Y X) by done.
    rewrite triples_nil by done. cbn [for_each].
    cbv [mbind M_bind bind mret M_ret ret]. cbn [fst snd app].
    unfold np_zeros. rewrite prod_shape_volume.
    replace (extent czi "T" * extent czi "C" * extent czi "Z" * (Y * X))
      with 0; [done|].
    destruct Hzero as [->|[->| ->]]; lia. }
  split; [exact Ha|]. split.
  - by rewrite (convert_to_ometiff_run _ _ _ _ _ _ Ha).
  - intros Hav. rewrite (convert_to_ims_run _ _ _ _ _ _ Hav Ha).
    by rewrite export_ims_unfold.
Qed.

Lemma empty_axis_reads_nothing_witness :
  assemble demo_world_no_slice "in.czi" 1
  = (Ok (mk_assembled (extent demo_czi_no_slice "T")
           (extent demo_czi_no_slice "C") (extent demo_czi_no_slice "Z") 2 2
           (mk_ndarray uint16
              [extent demo_czi_no_slice "T"; extent demo_czi_no_slice "C";
               extent demo_czi_no_slice "Z"; 2; 2] [])),
     [EvCziFile "in.czi"; EvReadMosaic 0 0 0 1])
  ∧ (convert_to_ometiff demo_world_no_slice "in.czi" "out.ome.tif" 1).2
    = [EvCziFile "in.czi"; EvReadMosaic 0 0 0 1;
       EvImwrite "out.ome.tif"
         (mk_ndarray uint16
            [extent demo_czi_no_slice "T"; extent demo_czi_no_slice "C";
             extent demo_czi_no_slice "Z"; 2; 2] [])
         "TCZYX" true]
  ∧ (IMARIS_AVAILABLE demo_world_no_slice = true →
     (convert_to_ims demo_world_no_slice "in.czi" "out.ome.tif" 1).2
     = [EvCziFile "in.czi"; EvReadMosaic 0 0 0 1]
       ++ (export_ims demo_world_no_slice "out.ome.tif"
             (mk_assembled (extent demo_czi_no_slice "T")
                (extent demo_czi_no_slice "C") (extent demo_czi_no_slice "Z")
                2 2
                (mk_ndarray uint16
                   [extent demo_czi_no_slice "T";
                    extent demo_czi_no_slice "C";
                    extent demo_czi_no_slice "Z"; 2; 2]
                   []))).2).
Proof.
  apply (empty_axis_reads_nothing demo_world_no_slice "in.czi" "out.ome.tif"
           1 demo_czi_no_slice
           (mk_ndarray uint16 [1; 2; 2] [0; 7; 8; 9]%Z) 2 2).
  - reflexivity.
  - reflexivity.
  - reflexivity.
  - reflexivity.
  - right. right. vm_compute. reflexivity.
Defined.

(** X3.  A sample mosaic with fewer than two axes stops both converters with
    an [IndexError] right after the sample read: no array is allocated, no
    plane is read, nothing is written. *)
Theorem sample_below_rank_two_raises
    w input_czi output_path scale czi sample :
  world_open w input_czi = Some czi →
  czi_read_mosaic czi 0 0 0 scale = Some sample →
  length (arr_shape sample) < 2 →
  convert_to_ometiff w input_czi output_path scale
  = (Raise IndexError, [EvCziFile input_czi; EvReadMosaic 0 0 0 scale])
  ∧ (IMARIS_AVAILABLE w = true →
     convert_to_ims w input_czi output_path scale
     = (Raise IndexError, [EvCziFile input_czi; EvReadMosaic 0 0 0 scale])).
Proof.
  intros Hopen Hsample Hrank.
  assert (assemble w input_czi scale
          = (Raise IndexError, [EvCziFile input_czi; EvReadMosaic 0 0 0 scale]))
    as Ha.
  { unfold assemble, CziFile_open, read_mosaic, external. rewrite Hopen.
    cbv [mbind M_bind bind lift]. rewrite Hsample.
    by rewrite tuple_get_short. }
  split.
  - by apply convert_to_ometiff_abort.
  - intros Hav. by apply convert_to_ims_abort.
Qed.

Lemma sample_below_rank_two_raises_witness :
  convert_to_ometiff (demo_world_of demo_czi_flat) "in.czi" "out.ome.tif" 1
  = (Raise IndexError, [EvCziFile "in.czi"; EvReadMosaic 0 0 0 1])
  ∧ (IMARIS_AVAILABLE (demo_world_of demo_czi_flat) = true →
     convert_to_ims (demo_world_of demo_czi_flat) "in.czi" "out.ome.tif" 1
     = (Raise IndexError, [EvCziFile "in.czi"; EvReadMosaic 0 0 0 1])).
Proof.
  apply (sample_below_rank_two_raises (demo_world_of demo_czi_flat) "in.czi"
           "out.ome.tif" 1 demo_czi_flat
           (mk_ndarray uint8 [4] [1; 2; 3; 4]%Z)).
  - reflexivity.
  - reflexivity.
  - simpl. lia.
Defined.

(** X4.  A source whose sample plane is empty ([Y * X = 0]) cannot be
    converted once there is a triple to visit: the first [reshape(-1, Y, X)]
    of the loop raises [ValueError], after the sample read and one read of
    the triple [(0, 0, 0)]. *)
Theorem empty_sample_plane_raises
    w input_czi output_path scale czi sample Y X :
  world_open w input_czi = Some czi →
  czi_read_mosaic czi 0 0 0 scale = Some sample →
  tuple_get (arr_shape sample) (-2) = Ok Y →
  tuple_get (arr_shape sample) (-1) = Ok X →
  Y * X = 0 →
  0 < extent czi "T" → 0 < extent czi "C" → 0 < extent czi "Z" →
  convert_to_ometiff w input_czi output_path scale
  = (Raise ValueError,
     [EvCziFile input_czi; EvReadMosaic 0 0 0 scale; EvReadMosaic 0 0 0 scale])
  ∧ (IMARIS_AVAILABLE w = true →
     convert_to_ims w input_czi output_path scale
     = (Raise ValueError,
        [EvCziFile input_czi; EvReadMosaic 0 0 0 scale;
         EvReadMosaic 0 0 0 scale])).
Proof.
  intros Hopen Hsample HY HX Hyx HT HC HZ.
  destruct (triples_head _ _ _ HT HC HZ) as [l Hl].
  assert (decoded_plane czi scale Y X 0 0 0 = Raise ValueError) as Hfail.
  { unfold decoded_plane, first_plane, reshape_m1. rewrite Hsample.
    by rewrite decide_True. }
  assert (assemble w input_czi scale
          = (Raise ValueError,
             [EvCziFile input_czi; EvReadMosaic 0 0 0 scale;
              EvReadMosaic 0 0 0 scale])) as Ha.
  { rewrite (assemble_open _ _ _ czi Hopen).
    rewrite (assemble_opened_spec czi scale sample Y X) by done.
    rewrite Hl. cbn [for_each]. rewrite store_plane_unfold, Hfail.
    by cbv [mbind M_bind bind]. }
  split.
  - by apply convert_to_ometiff_abort.
  - intros Hav. by apply convert_to_ims_abort.
Qed.

Lemma empty_sample_plane_raises_witness :
  convert_to_ometiff (demo_world_of demo_czi_empty_plane) "in.czi" "o.tif" 1
  = (Raise ValueError,
     [EvCziFile "in.czi"; EvReadMosaic 0 0 0 1; EvReadMosaic 0 0 0 1])
  ∧ (IMARIS_AVAILABLE (demo_world_of demo_czi_empty_plane) = true →
     convert_to_ims (demo_world_of demo_czi_empty_plane) "in.czi" "o.tif" 1
     = (Raise ValueError,
        [EvCziFile "in.czi"; EvReadMosaic 0 0 0 1; EvReadMosaic 0 0 0 1])).
Proof.
  apply (empty_sample_plane_raises (demo_world_of demo_czi_empty_plane)
           "in.czi" "o.tif" 1 demo_czi_empty_plane
           (mk_ndarray uint8 [1; 0; 3] []) 0 3).
  - reflexivity.
  - reflexivity.
  - reflexivity.
  - reflexivity.
  - reflexivity.
  - vm_compute; lia.
  - vm_compute; lia.
  - vm_compute; lia.
Defined.

(** ** Sizes of the labels that are present *)

Lemma foldl_insert_absent (k : string) (l : list (string * nat))
    (m : gmap string nat) :
  k ∉ l.*1 → foldl (λ m kv, <[kv.1 := kv.2]> m) m l !! k = m !! k.
Proof.
  revert m. induction l as [|[k' v] l IH]; intros m Hl; [done|].
  apply not_elem_of_cons in Hl as [Hne Hl]. cbn [foldl].
  rewrite IH by done. by apply lookup_insert_ne.
Qed.

Lemma lookup_dict_zip_last keys values i k v :
  keys !! i = Some k → values !! i = Some v → k ∉ drop (S i) keys →
  dict_zip keys values !! k = Some v.
Proof.
  unfold dict_zip. generalize (∅ : gmap string nat).
  revert values i. induction keys as [|k0 keys IH]; intros values i m;
    [done|].
  destruct values as [|v0 values]; [done|]. destruct i as [|i]; cbn [zip_with foldl].
  - intros [= ->] [= ->] Hlater. cbn [drop] in Hlater.
    rewrite foldl_insert_absent; [by rewrite lookup_insert_eq|].
    intros Hin. apply Hlater.
    apply list_elem_of_fmap in Hin as ([k' v'] & -> & Hin).
    by apply elem_of_zip_l in Hin.
  - intros Hk Hv Hlater. by apply (IH values i).
Qed.

(** X5.  The extent the converters use for a label of the dimension string
    is the size at the position of that label; when a label is repeated, the
    size at its last position counts. *)
Theorem extent_of_present_label czi i label n :
  czi_dims czi !! i = Some label →
  czi_size czi !! i = Some n →
  label ∉ drop (S i) (czi_dims czi) →
  dict_get (dict_zip (czi_dims czi) (czi_size czi)) label 1 = n.
Proof.
  intros Hk Hv Hlast. unfold dict_get.
  by rewrite (lookup_dict_zip_last _ _ i label n).
Qed.

Lemma extent_of_present_label_witness :
  dict_get (dict_zip (czi_dims demo_czi) (czi_size demo_czi)) "Z" 1 = 3.
Proof.
  apply (extent_of_present_label demo_czi 2 "Z" 3).
  - reflexivity.
  - reflexivity.
  - cbn [czi_dims demo_czi drop]. intros Hin.
    repeat (apply elem_of_cons in Hin as [Heq|Hin]; [discriminate Heq|]).
    by apply elem_of_nil in Hin.
Defined.

(** ** Samples stay within their type *)

Lemma astype_fits src dst v : fits src v → fits dst (astype src dst v).
Proof.
  unfold fits, astype. intros Hv. destruct (decide (src = dst)) as [<-|_];
    [done|].
  apply Z.mod_pos_bound. by destruct dst.
Qed.

Lemma for_each_invariant {A S} (I : S → Prop) (xs : list A) (s : S)
    (body : A → S → M S) s' tr :
  (∀ x s s' tr, x ∈ xs → I s → body x s = (Ok s', tr) → I s') →
  I s → for_each xs s body = (Ok s', tr) → I s'.
Proof.
  revert s tr. induction xs as [|x xs IH]; intros s tr Hstep Hs.
  - by intros [= <- <-].
  - cbn [for_each]. cbv [mbind M_bind bind].
    destruct (body x s) as [[s1|e] tr1] eqn:Hb; [|done].
    destruct (for_each xs s1 body) as [r tr2] eqn:Hloop. intros [= -> <-].
    apply (IH s1 tr2); [|by eapply Hstep; [left| |]|done].
    intros x' s2 s3 tr3 Hin. apply Hstep. by right.
Qed.

Lemma store_plane_fits czi scale Y X t c z arr arr' tr :
  (∀ mos, czi_read_mosaic czi t c z scale = Some mos →
          Forall (fits (arr_dtype mos)) (arr_data mos)) →
  Forall (fits (arr_dtype arr)) (arr_data arr) →
  store_plane czi scale Y X (t, c, z) arr = (Ok arr', tr) →
  Forall (fits (arr_dtype arr')) (arr_data arr').
Proof.
  intros Hmos Harr. rewrite store_plane_unfold. unfold decoded_plane.
  destruct (czi_read_mosaic czi t c z scale) as [mos|]; [|done].
  destruct (first_plane Y X mos) as [p|] eqn:Hp; [|done].
  apply first_plane_Ok in Hp as (-> & _ & _).
  unfold setitem3. repeat case_match; try done. intros [= <- _].
  cbn [arr_dtype arr_data]. apply Forall_inserts; [done|].
  apply Forall_fmap, Forall_take.
  eapply Forall_impl; [by apply Hmos|]. intros v. apply astype_fits.
Qed.

Lemma assemble_fits w input_czi scale czi a tr :
  world_open w input_czi = Some czi →
  (∀ t c z mos,
     t < extent czi "T" → c < extent czi "C" → z < extent czi "Z" →
     czi_read_mosaic czi t c z scale = Some mos →
     Forall (fits (arr_dtype mos)) (arr_data mos)) →
  assemble w input_czi scale = (Ok a, tr) →
  Forall (fits (arr_dtype (as_arr a))) (arr_data (as_arr a)).
Proof.
  intros Hopen Hsrc. rewrite (assemble_open _ _ _ czi Hopen).
  unfold assemble_opened, read_mosaic, external.
  cbv [mbind M_bind bind lift mret M_ret ret].
  destruct (czi_read_mosaic czi 0 0 0 scale) as [sample|]; [|done].
  destruct (tuple_get (arr_shape sample) (-2)) as [Y|]; [|done].
  destruct (tuple_get (arr_shape sample) (-1)) as [X|]; [|done].
  destruct (for_each _ _ _) as [[arr|e] tr'] eqn:Hloop; [|done].
  intros [= <- _]. cbn [as_arr].
  eapply (for_each_invariant
            (λ arr, Forall (fits (arr_dtype arr)) (arr_data arr)));
    [| |exact Hloop].
  - intros [[t c] z] s s' tr1 (Ht & Hc & Hz)%elem_of_triples Hs Hbody.
    eapply store_plane_fits; [|done|done]. intros mos. by apply Hsrc.
  - unfold np_zeros. cbn [arr_dtype arr_data]. apply Forall_replicate.
    unfold fits. split; [done|]. by destruct (arr_dtype sample).
Qed.

(** X6.  If every mosaic the reader returns holds samples of its own type,
    then every sample of the array [convert_to_ometiff] writes is a sample
    of the type of that array, and every sample of the block
    [convert_to_ims] copies is a sample of the type named at the
    initialisation of the converter: conversions on assignment wrap, they
    never leave the type. *)
Theorem exported_samples_fit_dtype w input_czi output_path scale czi :
  world_open w input_czi = Some czi →
  (∀ t c z mos,
     t < extent czi "T" → c < extent czi "C" → z < extent czi "Z" →
     czi_read_mosaic czi t c z scale = Some mos →
     Forall (fits (arr_dtype mos)) (arr_data mos)) →
  (∀ path arr axes ome,
     EvImwrite path arr axes ome
       ∈ (convert_to_ometiff w input_czi output_path scale).2 →
     Forall (fits (arr_dtype arr)) (arr_data arr))
  ∧ (∀ flat idx name image_size sample_size dim_seq block_size path app
       version cb,
       EvCopyBlock flat idx
         ∈ (convert_to_ims w input_czi output_path scale).2 →
       EvImageConverter name image_size sample_size dim_seq block_size path
                        app version cb
         ∈ (convert_to_ims w input_czi output_path scale).2 →
       ∃ dt, name = dtype_str dt ∧ Forall (fits dt) flat).
Proof.
  intros Hopen Hsrc. split.
  - intros path arr axes ome Hin.
    apply convert_to_ometiff_imwrite in Hin as (a & tr & Ha & ->).
    by eapply assemble_fits.
  - intros flat idx name image_size sample_size dim_seq block_size path app
      version cb Hcopy Hinit.
    apply convert_to_ims_event in Hcopy as (_ & a & tr & Ha & Hcopy); [|done].
    apply convert_to_ims_event in Hinit as (_ & a' & tr' & Ha' & Hinit);
      [|done].
    rewrite Ha in Ha'. injection Ha' as <- <-.
    apply export_ims_copy_block in Hcopy. injection Hcopy as -> _.
    apply export_ims_finish in Hinit as (_ & _ & Heq).
    injection Heq as -> _. eexists. split; [done|].
    by eapply assemble_fits.
Qed.

Lemma exported_samples_fit_dtype_witness :
  (∀ path arr axes ome,
     EvImwrite path arr axes ome
       ∈ (convert_to_ometiff demo_world "in.czi" "out.ims" 1).2 →
     Forall (fits (arr_dtype arr)) (arr_data arr))
  ∧ (∀ flat idx name image_size sample_size dim_seq block_size path app
       version cb,
       EvCopyBlock flat idx
         ∈ (convert_to_ims demo_world "in.czi" "out.ims" 1).2 →
       EvImageConverter name image_size sample_size dim_seq block_size path
                        app version cb
         ∈ (convert_to_ims demo_world "in.czi" "out.ims" 1).2 →
       ∃ dt, name = dtype_str dt ∧ Forall (fits dt) flat).
Proof.
  apply (exported_samples_fit_dtype demo_world "in.czi" "out.ims" 1 demo_czi).
  - reflexivity.
  - intros t c z mos Ht Hc Hz Hmos.
    assert (t < 1 ∧ c < 2 ∧ z < 3) as (Ht' & Hc' & Hz')
      by (split_and!; [exact Ht|exact Hc|exact Hz]).
    injection Hmos as <-. cbn [arr_dtype arr_data fmap list_fmap].
    repeat constructor; unfold fits; cbn [dtype_bits]; lia.
Defined.

(** ** Order and outcome of the calls *)

Lemma reader_only_no_writer_steps tr :
  Forall (λ ev, reader_event ev = true) tr → omap writer_step tr = [].
Proof.
  induction 1 as [|ev tr Hev _ IH]; [done|].
  cbn [omap list_omap]. destruct ev; try done; by rewrite IH.
Qed.

(** X7.  Every run of [convert_to_ims] is made of three phases in this
    order: calls of the reader; then either no dialog or the three voxel-size
    dialogs; then calls of the Imaris converter, which are an initial part of
    the sequence initialise, copy block, finish, destroy, each made at most
    once.  The converter is only touched after all three dialogs, and the
    dialogs only come after the last plane has been read. *)
Theorem imaris_calls_follow_protocol w input_czi output_path scale :
  ∃ reads asks calls,
    (convert_to_ims w input_czi output_path scale).2 = reads ++ asks ++ calls
    ∧ Forall (λ ev, reader_event ev = true) reads
    ∧ (asks = []
       ∨ asks = [EvAskFloat "Voxel Size" "X (µm):" 1;
                 EvAskFloat "Voxel Size" "Y (µm):" 1;
                 EvAskFloat "Voxel Size" "Z (µm):" 1])
    ∧ (calls ≠ [] → asks ≠ [])
    ∧ Forall (λ ev, writer_event ev = true) calls
    ∧ omap writer_step calls `prefix_of` [0; 1; 2; 3].
Proof.
  destruct (IMARIS_AVAILABLE w) eqn:Hav.
  2:{ rewrite convert_to_ims_unavailable by done. exists [], [], [].
      split_and!; try done; [by left|by exists [0; 1; 2; 3]]. }
  pose proof (assemble_reader_only w input_czi scale) as Hrd.
  destruct (assemble w input_czi scale) as [[a|e] tr] eqn:Ha.
  2:{ rewrite (convert_to_ims_abort _ _ _ _ e tr) by done.
      exists tr, [], []. rewrite !app_nil_r.
      split_and!; try done; [by left|by exists [0; 1; 2; 3]]. }
  rewrite (convert_to_ims_run _ _ _ _ a tr) by done. cbn [snd] in *.
  unfold export_ims_closed, failed.
  destruct (voxel_sizes w) as [[[vx vy] vz]|].
  2:{ exists tr, ask_events, []. rewrite app_nil_r.
      split_and!; try done; [by right|by exists [0; 1; 2; 3]]. }
  destruct (world_converter_ok w), (world_copyblock_ok w),
           (world_finish_ok w); cbn [snd].
  all: eexists tr, ask_events, _; split; [reflexivity|].
  all: split; [done|]; split; [by right|]; split; [done|].
  all: split; [by repeat constructor|].
  all: cbn [omap list_omap writer_step converter_event finish_event].
  all: first [by exists [] | by exists [3] | by exists [2; 3]
             | by exists [1; 2; 3]].
Qed.

(** X8.  [convert_to_ims] returns normally exactly when the whole protocol
    of the converter has run, up to and including a [Destroy] that returned
    normally; in every other case it raises. *)
Theorem convert_to_ims_returns_iff_released w input_czi output_path scale :
  (convert_to_ims w input_czi output_path scale).1 = Ok tt ↔
  omap writer_step (convert_to_ims w input_czi output_path scale).2
    = [0; 1; 2; 3]
  ∧ world_destroy_ok w = true.
Proof.
  destruct (IMARIS_AVAILABLE w) eqn:Hav.
  2:{ rewrite convert_to_ims_unavailable by done. cbn [fst snd]. split.
      - done.
      - by intros [? _]. }
  pose proof (assemble_reader_only w input_czi scale) as Hrd.
  destruct (assemble w input_czi scale) as [[a|e] tr] eqn:Ha.
  2:{ rewrite (convert_to_ims_abort _ _ _ _ e tr) by done. cbn [fst snd] in *.
      rewrite reader_only_no_writer_steps by done. split.
      - done.
      - by intros [? _]. }
  rewrite (convert_to_ims_run _ _ _ _ a tr) by done. cbn [fst snd] in *.
  rewrite omap_app, reader_only_no_writer_steps by done.
  unfold export_ims_closed, failed.
  destruct (voxel_sizes w) as [[[vx vy] vz]|]; [|split; [done|by intros [? _]]].
  destruct (world_converter_ok w), (world_copyblock_ok w),
           (world_finish_ok w), (world_destroy_ok w); cbn; split;
    try done; by intros [? ?].
Qed.

(** X9.  [convert_to_ometiff] calls [tifffile.imwrite] only after a complete
    assembly, once, as its last action, on the output path, with the
    assembled array, the axes ["TCZYX"] and [ome=True]; after a failed
    assembly nothing is written.  It returns normally exactly when the
    assembly completed and [imwrite] returned normally. *)
Theorem ometiff_written_once_and_complete w input_czi output_path scale :
  (∀ path arr axes ome,
     EvImwrite path arr axes ome
       ∈ (convert_to_ometiff w input_czi output_path scale).2 →
     path = output_path ∧ axes = "TCZYX" ∧ ome = true
     ∧ ∃ a tr,
         assemble w input_czi scale = (Ok a, tr) ∧ arr = as_arr a
         ∧ (convert_to_ometiff w input_czi output_path scale).2
           = tr ++ [EvImwrite output_path arr "TCZYX" true]
         ∧ Forall (λ ev, reader_event ev = true) tr)
  ∧ ((∃ e tr, assemble w input_czi scale = (Raise e, tr)) →
     Forall (λ ev, reader_event ev = true)
            (convert_to_ometiff w input_czi output_path scale).2)
  ∧ ((convert_to_ometiff w input_czi output_path scale).1 = Ok tt ↔
     (∃ a tr, assemble w input_czi scale = (Ok a, tr))
     ∧ world_imwrite_ok w = true).
Proof.
  pose proof (assemble_reader_only w input_czi scale) as Hrd.
  destruct (assemble w input_czi scale) as [[a|e] tr] eqn:Ha.
  - rewrite (convert_to_ometiff_run _ _ _ _ a tr) by done.
    cbn [fst snd] in *. split_and!.
    + intros path arr axes ome [Hin|Hin]%elem_of_app.
      { rewrite Forall_forall in Hrd. by apply Hrd in Hin. }
      apply list_elem_of_singleton in Hin. injection Hin as -> -> -> ->.
      split_and!; try done. by exists a, tr.
    + by intros (e & tr' & ?).
    + destruct (world_imwrite_ok w); split; try done; eauto.
      by intros [_ ?].
  - rewrite (convert_to_ometiff_abort _ _ _ _ e tr) by done.
    cbn [fst snd] in *. split_and!.
    + intros path arr axes ome Hin.
      rewrite Forall_forall in Hrd. by apply Hrd in Hin.
    + done.
    + split; [done|]. by intros [(a & tr' & ?) _].
Qed.

Lemma convert_to_ometiff_errors w input_czi output_path scale e :
  (convert_to_ometiff w input_czi output_path scale).1 = Raise e →
  numpy_or_reader_error e ∨ e = LibraryError "tifffile".
Proof.
  pose proof (assemble_errors w input_czi scale) as Herr.
  destruct (assemble w input_czi scale) as [[a|e'] tr] eqn:Ha; cbn [fst] in *.
  - rewrite (convert_to_ometiff_run _ _ _ _ a tr) by done. cbn [fst].
    destruct (world_imwrite_ok w); [done|]. intros [= <-]. by right.
  - rewrite (convert_to_ometiff_abort _ _ _ _ e' tr) by done.
    intros [= <-]. left. by apply Herr.
Qed.

Lemma convert_to_ims_errors w input_czi output_path scale e :
  IMARIS_AVAILABLE w = true →
  (convert_to_ims w input_czi output_path scale).1 = Raise e →
  numpy_or_reader_error e
  ∨ (e = RuntimeError "Voxel size entry cancelled." ∧ voxel_sizes w = None)
  ∨ e = LibraryError "PyImarisWriter".
Proof.
  intros Hav. pose proof (assemble_errors w input_czi scale) as Herr.
  destruct (assemble w input_czi scale) as [[a|e'] tr] eqn:Ha; cbn [fst] in *.
  - rewrite (convert_to_ims_run _ _ _ _ a tr) by done. cbn [fst].
    unfold export_ims_closed, failed. intros Hres.
    destruct (voxel_sizes w) as [[[vx vy] vz]|].
    2:{ injection Hres as <-. right. by left. }
    destruct (world_converter_ok w), (world_copyblock_ok w),
             (world_finish_ok w), (world_destroy_ok w);
      simplify_eq/=; by eauto.
  - rewrite (convert_to_ims_abort _ _ _ _ e' tr) by done.
    intros [= <-]. left. by apply Herr.
Qed.

(** X10.  The exceptions of the converters, for a PyImarisWriter that
    provides both colour classes.  [convert_to_ometiff] raises only what the
    reader and the array operations raise, or the error of [imwrite].
    [convert_to_ims] raises a [RuntimeError] in two cases only: Imaris is
    unavailable, or it is available and a voxel-size dialog was cancelled;
    its other exceptions are those of the reader, of the array operations and
    of the Imaris converter. *)
Theorem converter_exceptions w input_czi output_path scale e :
  colour_classes_found w →
  ((convert_to_ometiff w input_czi output_path scale).1 = Raise e →
   numpy_or_reader_error e ∨ e = LibraryError "tifffile")
  ∧ ((convert_to_ims w input_czi output_path scale).1 = Raise e →
     (e = RuntimeError "PyImarisWriter unavailable; cannot write .ims"
      ∧ IMARIS_AVAILABLE w = false)
     ∨ (IMARIS_AVAILABLE w = true
        ∧ (numpy_or_reader_error e
           ∨ (e = RuntimeError "Voxel size entry cancelled."
              ∧ voxel_sizes w = None)
           ∨ e = LibraryError "PyImarisWriter"))).
Proof.
  intros _.
  split; [apply convert_to_ometiff_errors|].
  destruct (IMARIS_AVAILABLE w) eqn:Hav.
  - intros Hres. right. split; [done|]. by eapply convert_to_ims_errors.
  - rewrite convert_to_ims_unavailable by done. intros [= <-]. by left.
Qed.

Lemma converter_exceptions_witness :
  ((convert_to_ometiff demo_world_cancelled "in.czi" "out.ims" 1).1
   = Raise (RuntimeError "Voxel size entry cancelled.") →
   numpy_or_reader_error (RuntimeError "Voxel size entry cancelled.")
   ∨ RuntimeError "Voxel size entry cancelled." = LibraryError "tifffile")
  ∧ ((convert_to_ims demo_world_cancelled "in.czi" "out.ims" 1).1
     = Raise (RuntimeError "Voxel size entry cancelled.") →
     (RuntimeError "Voxel size entry cancelled."
      = RuntimeError "PyImarisWriter unavailable; cannot write .ims"
      ∧ IMARIS_AVAILABLE demo_world_cancelled = false)
     ∨ (IMARIS_AVAILABLE demo_world_cancelled = true
        ∧ (numpy_or_reader_error (RuntimeError "Voxel size entry cancelled.")
           ∨ (RuntimeError "Voxel size entry cancelled."
              = RuntimeError "Voxel size entry cancelled."
              ∧ voxel_sizes demo_world_cancelled = None)
           ∨ RuntimeError "Voxel size entry cancelled."
             = LibraryError "PyImarisWriter"))).
Proof.
  apply (converter_exceptions demo_world_cancelled "in.czi" "out.ims" 1
           (RuntimeError "Voxel size entry cancelled.")).
  intros PW HPW. vm_compute in HPW. injection HPW as <-.
  split; reflexivity.
Defined.

(** ** The progress callback *)

Lemma RecordProgress_spec self progress block_id self' line :
  RecordProgress self progress block_id = Some (self', line) →
  ∃ pct, int_of_float (progress * 100) = Some pct
    ∧ ((line = Some (pct, block_id) ∧ cb_last self' = pct
        ∧ (cb_last self + 5 ≤ pct)%Z)
       ∨ (line = None ∧ self' = self ∧ (pct < cb_last self + 5)%Z)).
Proof.
  unfold RecordProgress.
  destruct (int_of_float (progress * 100)) as [pct|]; [|done].
  destruct (5 <=? pct - cb_last self)%Z eqn:Hcmp; intros [= <- <-];
    exists pct; (split; [done|]).
  - left. split_and!; [done..|]. apply Z.leb_le in Hcmp. lia.
  - right. split_and!; [done..|]. apply Z.leb_gt in Hcmp. lia.
Qed.

Lemma record_all_cons self progress block_id calls self'' lines :
  record_all self ((progress, block_id) :: calls) = Some (self'', lines) →
  ∃ self' line lines',
    RecordProgress self progress block_id = Some (self', line)
    ∧ record_all self' calls = Some (self'', lines')
    ∧ lines = match line with Some l => l :: lines' | None => lines' end.
Proof.
  cbn [record_all].
  destruct (RecordProgress self progress block_id) as [[self' line]|];
    [|done].
  destruct (record_all self' calls) as [[self3 lines']|] eqn:Hrest; [|done].
  intros [= <- <-]. by exists self', line, lines'.
Qed.

(** X11.  Over any series of calls on one callback object, the percentages
    printed go up by five points or more from one line to the next, the first
    being at least five above the starting value; the object ends up holding
    the last percentage printed, so progress that stalls or falls back prints
    nothing; and every line carries the truncated percentage and the byte
    count of one of the calls. *)
Theorem progress_reports_are_spaced self calls self' lines :
  record_all self calls = Some (self', lines) →
  spaced (cb_last self) lines.*1
  ∧ cb_last self' = default (cb_last self) (last lines.*1)
  ∧ (cb_last self ≤ cb_last self')%Z
  ∧ ∀ pct block_id, (pct, block_id) ∈ lines →
      ∃ progress, (progress, block_id) ∈ calls
                  ∧ int_of_float (progress * 100) = Some pct.
Proof.
  revert self self' lines.
  induction calls as [|[progress block_id] calls IH]; intros self self' lines.
  - intros [= <- <-]. split_and!; try done.
    intros pct b Hin. by apply elem_of_nil in Hin.
  - intros (self1 & line & lines' & Hrec & Hrest & ->)%record_all_cons.
    destruct (IH _ _ _ Hrest) as (Hsp & Hlast & Hle & Hsrc).
    apply RecordProgress_spec in Hrec
      as (pct & Hpct & [(-> & Hs1 & Hstep)|(-> & -> & Hlow)]).
    + rewrite Hs1 in *. cbn [fmap list_fmap fst spaced]. split_and!.
      * done.
      * done.
      * rewrite Hlast, last_cons. by destruct (last lines'.*1).
      * lia.
      * intros pct' b [[= -> ->]|Hin]%elem_of_cons.
        { exists progress. split; [by left|done]. }
        destruct (Hsrc _ _ Hin) as (progress' & Hin' & Hp').
        exists progress'. split; [by right|done].
    + split_and!; try done.
      intros pct' b Hin. destruct (Hsrc _ _ Hin) as (progress' & Hin' & Hp').
      exists progress'. split; [by right|done].
Qed.

Lemma progress_reports_are_spaced_witness :
  spaced (cb_last (mk_ProgressCallback 0)) [(50, 20); (100, 50)]%Z.*1
  ∧ cb_last (mk_ProgressCallback 100)
    = default (cb_last (mk_ProgressCallback 0))
              (last [(50, 20); (100, 50)]%Z.*1)
  ∧ (cb_last (mk_ProgressCallback 0) ≤ cb_last (mk_ProgressCallback 100))%Z
  ∧ ∀ pct block_id, (pct, block_id) ∈ [(50, 20); (100, 50)]%Z →
      ∃ progress,
        (progress, block_id)
          ∈ [(0.03125%float, 10%Z); (0.5%float, 20%Z); (0.53125%float, 30%Z);
             (0.25%float, 40%Z); (1%float, 50%Z)]
        ∧ int_of_float (progress * 100) = Some pct.
Proof.
  apply (progress_reports_are_spaced (mk_ProgressCallback 0)
           [(0.03125%float, 10%Z); (0.5%float, 20%Z); (0.53125%float, 30%Z);
            (0.25%float, 40%Z); (1%float, 50%Z)]
           (mk_ProgressCallback 100) [(50, 20); (100, 50)]%Z).
  vm_compute. reflexivity.
Defined.

Lemma record_all_bounded (bound : Z) self calls self' lines :
  record_all self calls = Some (self', lines) →
  (∀ progress block_id pct,
     (progress, block_id) ∈ calls →
     int_of_float (progress * 100) = Some pct → (pct ≤ bound)%Z) →
  (cb_last self ≤ bound)%Z →
  (cb_last self' ≤ bound)%Z
  ∧ (5 * Z.of_nat (length lines) ≤ cb_last self' - cb_last self)%Z.
Proof.
  revert self self' lines.
  induction calls as [|[progress block_id] calls IH]; intros self self' lines.
  - intros [= <- <-] _ Hself. simpl. lia.
  - intros (self1 & line & lines' & Hrec & Hrest & ->)%record_all_cons
      Hbound Hself.
    apply RecordProgress_spec in Hrec
      as (pct & Hpct & [(-> & Hs1 & Hstep)|(-> & -> & Hlow)]).
    + destruct (IH _ _ _ Hrest) as [Hb Hn].
      { intros p b q Hin. apply (Hbound p b). by right. }
      { rewrite Hs1. apply (Hbound progress block_id); [by left|done]. }
      split; [done|]. cbn [length]. lia.
    + destruct (IH _ _ _ Hrest) as [Hb Hn]; [|done|done].
      intros p b q Hin. apply (Hbound p b). by right.
Qed.

(** X12.  A fresh callback that is only told progress of at most 100 percent
    prints at most twenty lines, however many times it is called. *)
Theorem progress_reports_at_most_twenty calls self' lines :
  record_all (mk_ProgressCallback 0) calls = Some (self', lines) →
  (∀ progress block_id pct,
     (progress, block_id) ∈ calls →
     int_of_float (progress * 100) = Some pct → (pct ≤ 100)%Z) →
  length lines ≤ 20.
Proof.
  intros Hrun Hbound.
  destruct (record_all_bounded 100 _ _ _ _ Hrun Hbound) as [Hb Hn]; [done|].
  cbn [cb_last] in Hn. lia.
Qed.

Lemma progress_reports_at_most_twenty_witness :
  length [(50, 20); (100, 50)]%Z ≤ 20.
Proof.
  apply (progress_reports_at_most_twenty
           [(0.03125%float, 10%Z); (0.5%float, 20%Z); (0.53125%float, 30%Z);
            (0.25%float, 40%Z); (1%float, 50%Z)]
           (mk_ProgressCallback 100) [(50, 20); (100, 50)]%Z).
  - vm_compute. reflexivity.
  - intros progress block_id pct Hin Hpct.
    repeat (apply elem_of_cons in Hin as [Heq|Hin];
            [injection Heq as -> ->; vm_compute in Hpct;
             injection Hpct as <-; lia|]).
    by apply elem_of_nil in Hin.
Defined.

Example completion_can_go_unreported :
  record_all (mk_ProgressCallback 0) [(0.96875%float, 7%Z); (1%float, 8%Z)]
  = Some (mk_ProgressCallback 96, [(96, 7)]%Z)
  ∧ progress_line (96, 7)%Z = "[PROGRESS] 96%  bytes written: 7".
Proof. split; vm_compute; reflexivity. Qed.

(** ** The script *)

Lemma main_unfold g w :
  main g w =
  if decide (gui_askopenfilename g = "") then
    (SysExit, [MainAskOpenFilename;
               MainShowInfo "Cancelled" "No CZI selected. Exiting."])
  else
    match world_open w (gui_askopenfilename g) with
    | None =>
        (Uncaught (LibraryError "aicspylibczi"),
         [MainAskOpenFilename; MainLibrary (EvCziFile (gui_askopenfilename g))])
    | Some czi =>
        if decide (main_out g w = "") then
          (SysExit,
           main_before g w czi
           ++ [MainShowInfo "Cancelled" "No output selected. Exiting."])
        else
          (Exited,
           main_before g w czi
           ++ (MainLibrary <$> (main_conversion g w).2)
           ++ [main_report (main_conversion g w).1])
    end.
Proof.
  unfold main, main_before, main_conversion, main_out, main_report,
    CziFile_open, external.
  destruct (decide (gui_askopenfilename g = "")); [done|].
  destruct (world_open w (gui_askopenfilename g)) as [czi|]; [|done].
  destruct (main_save_dialog (main_use_ims g w)) as [title ext] eqn:Hdlg.
  cbn [fst snd fmap list_fmap app].
  destruct (decide (gui_asksaveasfilename g title = "")).
  { by rewrite <- !(assoc_L (++)). }
  destruct (main_use_ims g w).
  - destruct (convert_to_ims _ _ _ _) as [[[]|e] tr]; cbn [fst snd];
      by rewrite <- !(assoc_L (++)).
  - destruct (convert_to_ometiff _ _ _ _) as [[[]|e] tr]; cbn [fst snd];
      by rewrite <- !(assoc_L (++)).
Qed.

Lemma main_before_no_conversion g w czi :
  Forall (λ ev, conversion_event ev = false
                ∧ (∀ e, ev ≠ MainShowError e)
                ∧ ev ≠ MainShowInfo "Done" "Conversion complete!")
         (main_before g w czi).
Proof.
  unfold main_before. destruct (IMARIS_AVAILABLE w);
    by repeat constructor.
Qed.

(** X13.  How the script ends.  It stops through [sys.exit()] exactly when
    the input dialog is cancelled, or the source opens and the save dialog is
    cancelled.  It dies of an uncaught exception exactly when a source was
    chosen that the reader cannot open: the [CziFile] call for the metadata
    dialog stands before the [try].  In all other cases it runs to its end,
    whatever the conversion raises. *)
Theorem main_exit_cases g w :
  ((main g w).1 = SysExit ↔
   gui_askopenfilename g = ""
   ∨ (gui_askopenfilename g ≠ ""
      ∧ is_Some (world_open w (gui_askopenfilename g))
      ∧ main_out g w = ""))
  ∧ (∀ e, (main g w).1 = Uncaught e ↔
          gui_askopenfilename g ≠ ""
          ∧ world_open w (gui_askopenfilename g) = None
          ∧ e = LibraryError "aicspylibczi")
  ∧ ((main g w).1 = Exited ↔
     gui_askopenfilename g ≠ ""
     ∧ is_Some (world_open w (gui_askopenfilename g))
     ∧ main_out g w ≠ "").
Proof.
  rewrite main_unfold.
  destruct (decide (gui_askopenfilename g = "")) as [Hin|Hin];
    [|destruct (world_open w (gui_askopenfilename g)) as [czi|];
      [destruct (decide (main_out g w = "")) as [Hout|Hout]|]];
    cbn [fst].
  all: split_and!; [|intros e|]; (split; [try done|]).
  all: try (intros (_ & _ & ->); done).
  all: try (intros [?|(_ & [? ?] & ?)]; done).
  all: try (intros (? & [? ?] & ?); done).
  all: try (intros (? & ? & ?); done).
  all: try (intros [= <-]); try intros _.
  all: try (split_and!; by eauto).
  all: try (right; split_and!; by eauto).
  all: try (by left).
Qed.

(** X14.  When either file dialog is cancelled the script converts nothing:
    no plane is read, no dialog asks for a voxel size, no writer is called;
    it shows neither the "Done" dialog nor an error dialog. *)
Theorem main_cancelled_converts_nothing g w :
  gui_askopenfilename g = "" ∨ main_out g w = "" →
  Forall (λ ev, conversion_event ev = false
                ∧ (∀ e, ev ≠ MainShowError e)
                ∧ ev ≠ MainShowInfo "Done" "Conversion complete!")
         (main g w).2.
Proof.
  intros Hcancel. rewrite main_unfold.
  destruct (decide (gui_askopenfilename g = "")) as [Hin|Hin].
  { by repeat constructor. }
  destruct Hcancel as [?|Hout]; [done|].
  destruct (world_open w (gui_askopenfilename g)) as [czi|].
  2:{ by repeat constructor. }
  rewrite decide_True by done. cbn [snd].
  apply Forall_app. split; [apply main_before_no_conversion|].
  by repeat constructor.
Qed.

Lemma main_cancelled_converts_nothing_witness :
  Forall (λ ev, conversion_event ev = false
                ∧ (∀ e, ev ≠ MainShowError e)
                ∧ ev ≠ MainShowInfo "Done" "Conversion complete!")
         (main demo_gui_no_output demo_world).2.
Proof.
  apply (main_cancelled_converts_nothing demo_gui_no_output demo_world).
  right. reflexivity.
Defined.

(** X15.  Once a source that opens and an output path are chosen, the script
    runs one conversion, [convert_to_ims] if Imaris is available and was
    chosen and [convert_to_ometiff] otherwise, with scale factor 1, and closes
    with one dialog that tells its outcome: "Done" if the converter returned
    normally, an error dialog carrying the converter's exception if it
    raised.  Nothing the converter raises escapes. *)
Theorem main_reports_conversion_outcome g w czi :
  gui_askopenfilename g ≠ "" →
  world_open w (gui_askopenfilename g) = Some czi →
  main_out g w ≠ "" →
  main g w
  = (Exited,
     main_before g w czi
     ++ (MainLibrary <$>
           (if main_use_ims g w
            then convert_to_ims w (gui_askopenfilename g) (main_out g w) 1
            else convert_to_ometiff w (gui_askopenfilename g) (main_out g w) 1).2)
     ++ [match (if main_use_ims g w
                then convert_to_ims w (gui_askopenfilename g) (main_out g w) 1
                else convert_to_ometiff w (gui_askopenfilename g)
                       (main_out g w) 1).1 with
         | Ok _ => MainShowInfo "Done" "Conversion complete!"
         | Raise e => MainShowError e
         end])
  ∧ Forall (λ ev, conversion_event ev = false
                  ∧ (∀ e, ev ≠ MainShowError e)
                  ∧ ev ≠ MainShowInfo "Done" "Conversion complete!")
           (main_before g w czi).
Proof.
  intros Hin Hopen Hout. split; [|apply main_before_no_conversion].
  rewrite main_unfold, Hopen. by rewrite !decide_False by done.
Qed.

Lemma main_reports_conversion_outcome_witness :
  main demo_gui demo_world_cancelled
  = (Exited,
     main_before demo_gui demo_world_cancelled demo_czi
     ++ (MainLibrary <$>
           (if main_use_ims demo_gui demo_world_cancelled
            then convert_to_ims demo_world_cancelled
                   (gui_askopenfilename demo_gui)
                   (main_out demo_gui demo_world_cancelled) 1
            else convert_to_ometiff demo_world_cancelled
                   (gui_askopenfilename demo_gui)
                   (main_out demo_gui demo_world_cancelled) 1).2)
     ++ [match (if main_use_ims demo_gui demo_world_cancelled
                then convert_to_ims demo_world_cancelled
                       (gui_askopenfilename demo_gui)
                       (main_out demo_gui demo_world_cancelled) 1
                else convert_to_ometiff demo_world_cancelled
                       (gui_askopenfilename demo_gui)
                       (main_out demo_gui demo_world_cancelled) 1).1 with
         | Ok _ => MainShowInfo "Done" "Conversion complete!"
         | Raise e => MainShowError e
         end])
  ∧ Forall (λ ev, conversion_event ev = false
                  ∧ (∀ e, ev ≠ MainShowError e)
                  ∧ ev ≠ MainShowInfo "Done" "Conversion complete!")
           (main_before demo_gui demo_world_cancelled demo_czi).
Proof.
  apply (main_reports_conversion_outcome demo_gui demo_world_cancelled
           demo_czi).
  - discriminate.
  - reflexivity.
  - vm_compute. discriminate.
Defined.

Lemma main_use_ims_available g w :
  main_use_ims g w = true → IMARIS_AVAILABLE w = true ∧ gui_askyesno g = true.
Proof. unfold main_use_ims. by destruct (IMARIS_AVAILABLE w). Qed.

Lemma main_library_event g w ev :
  MainLibrary ev ∈ (main g w).2 →
  ev = EvCziFile (gui_askopenfilename g) ∨ ev ∈ (main_conversion g w).2.
Proof.
  rewrite main_unfold.
  destruct (decide (gui_askopenfilename g = "")) as [Hin|Hin].
  { cbn [snd]. intros Hev.
    repeat (apply elem_of_cons in Hev as [?|Hev]; [done|]).
    by apply elem_of_nil in Hev. }
  destruct (world_open w (gui_askopenfilename g)) as [czi|].
  2:{ cbn [snd]. intros Hev.
      repeat (apply elem_of_cons in Hev as [Heq|Hev];
              [try done; injection Heq as ->; by left|]).
      by apply elem_of_nil in Hev. }
  assert (MainLibrary ev ∈ main_before g w czi →
          ev = EvCziFile (gui_askopenfilename g)) as Hbefore.
  { unfold main_before. destruct (IMARIS_AVAILABLE w); cbn [app]; intros Hev;
      repeat (apply elem_of_cons in Hev as [Heq|Hev];
              [try done; by injection Heq as ->|]);
      by apply elem_of_nil in Hev. }
  destruct (decide (main_out g w = "")); cbn [snd].
  - intros [Hev|Hev]%elem_of_app; [left; by apply Hbefore|].
    apply list_elem_of_singleton in Hev. done.
  - intros [Hev|[Hev|Hev]%elem_of_app]%elem_of_app.
    + left. by apply Hbefore.
    + right. apply list_elem_of_fmap in Hev as (ev' & [= ->] & Hev). done.
    + apply list_elem_of_singleton in Hev.
      by destruct (main_conversion g w).1.
Qed.

(** X16.  The script only uses the Imaris path when it is available and was
    chosen.  Every call it makes to a library is a call of the reader, or the
    single [imwrite] of the OME-TIFF path, or, with Imaris available and
    "yes" answered to the format question, a voxel-size dialog or a call of
    the Imaris converter.  With Imaris unavailable there are only reader
    calls and [imwrite]. *)
Theorem main_imaris_only_when_chosen g w ev :
  MainLibrary ev ∈ (main g w).2 →
  reader_event ev = true
  ∨ (main_use_ims g w = false
     ∧ ∃ arr, ev = EvImwrite (main_out g w) arr "TCZYX" true)
  ∨ (IMARIS_AVAILABLE w = true ∧ gui_askyesno g = true
     ∧ (writer_event ev = true ∨ ev ∈ ask_events)).
Proof.
  intros [->|Hev]%main_library_event; [by left|].
  unfold main_conversion in Hev.
  destruct (main_use_ims g w) eqn:Huse.
  - destruct (main_use_ims_available _ _ Huse) as [Hav Hyes].
    destruct (reader_event ev) eqn:Hrd; [by left|]. right. right.
    split; [done|]. split; [done|].
    apply convert_to_ims_event in Hev as (_ & a & tr & _ & Hev); [|done].
    unfold export_ims_closed, failed in Hev.
    destruct (voxel_sizes w) as [[[vx vy] vz]|]; cbn [snd] in Hev.
    2:{ by right. }
    destruct (world_converter_ok w), (world_copyblock_ok w),
             (world_finish_ok w); cbn [snd] in Hev;
      (apply elem_of_app in Hev as [Hev|Hev]; [by right|]); left;
      unfold finish_event, converter_event in Hev;
      repeat (apply elem_of_cons in Hev as [->|Hev]; [done|]);
      by apply elem_of_nil in Hev.
  - pose proof (assemble_reader_only w (gui_askopenfilename g) 1) as Hrd.
    rewrite Forall_forall in Hrd.
    destruct (assemble w (gui_askopenfilename g) 1) as [[a|e] tr] eqn:Ha.
    + rewrite (convert_to_ometiff_run _ _ _ _ a tr) in Hev by done.
      cbn [snd] in *. apply elem_of_app in Hev as [Hev|Hev].
      { left. by apply Hrd. }
      apply list_elem_of_singleton in Hev as ->. right. left. eauto.
    + rewrite (convert_to_ometiff_abort _ _ _ _ e tr) in Hev by done.
      left. by apply Hrd.
Qed.

Lemma main_imaris_only_when_chosen_witness :
  reader_event EvDestroy = true
  ∨ (main_use_ims demo_gui demo_world = false
     ∧ ∃ arr, EvDestroy = EvImwrite (main_out demo_gui demo_world) arr
                            "TCZYX" true)
  ∨ (IMARIS_AVAILABLE demo_world = true ∧ gui_askyesno demo_gui = true
     ∧ (writer_event EvDestroy = true ∨ EvDestroy ∈ ask_events)).
Proof.
  apply (main_imaris_only_when_chosen demo_gui demo_world EvDestroy).
  vm_compute. do 19 right. left.
Defined.

(** X17.  With a PyImarisWriter that provides both colour classes, the
    exceptions the script shows in its error dialog are those of the reader,
    of the array operations, of [imwrite] and of the Imaris converter, and
    the cancellation of a voxel-size dialog.  The "PyImarisWriter
    unavailable" error of [convert_to_ims] is never shown: the script does
    not call [convert_to_ims] when Imaris is unavailable. *)
Theorem main_error_dialogs g w e :
  colour_classes_found w →
  MainShowError e ∈ (main g w).2 →
  (numpy_or_reader_error e
   ∨ e = LibraryError "tifffile"
   ∨ e = LibraryError "PyImarisWriter"
   ∨ (e = RuntimeError "Voxel size entry cancelled."
      ∧ main_use_ims g w = true ∧ voxel_sizes w = None))
  ∧ e ≠ RuntimeError "PyImarisWriter unavailable; cannot write .ims".
Proof.
  intros _ Hev.
  assert ((main_conversion g w).1 = Raise e) as Hres.
  { rewrite main_unfold in Hev.
    destruct (decide (gui_askopenfilename g = "")) as [Hin|Hin].
    { cbn [snd] in Hev.
      repeat (apply elem_of_cons in Hev as [?|Hev]; [done|]).
      by apply elem_of_nil in Hev. }
    destruct (world_open w (gui_askopenfilename g)) as [czi|].
    2:{ cbn [snd] in Hev.
        repeat (apply elem_of_cons in Hev as [?|Hev]; [done|]).
        by apply elem_of_nil in Hev. }
    pose proof (main_before_no_conversion g w czi) as Hbefore.
    rewrite Forall_forall in Hbefore.
    destruct (decide (main_out g w = "")); cbn [snd] in Hev.
    - apply elem_of_app in Hev as [Hev|Hev].
      + apply Hbefore in Hev as (_ & Hne & _). by destruct (Hne e).
      + by apply list_elem_of_singleton in Hev.
    - apply elem_of_app in Hev as [Hev|[Hev|Hev]%elem_of_app].
      + apply Hbefore in Hev as (_ & Hne & _). by destruct (Hne e).
      + by apply list_elem_of_fmap in Hev as (ev' & ? & _).
      + apply list_elem_of_singleton in Hev.
        destruct (main_conversion g w).1 as [[]|e']; [done|].
        by injection Hev as ->. }
  unfold main_conversion in Hres.
  assert (numpy_or_reader_error e
          ∨ e = LibraryError "tifffile"
          ∨ e = LibraryError "PyImarisWriter"
          ∨ (e = RuntimeError "Voxel size entry cancelled."
             ∧ main_use_ims g w = true ∧ voxel_sizes w = None)) as Hcases.
  { destruct (main_use_ims g w) eqn:Huse.
    - destruct (main_use_ims_available _ _ Huse) as [Hav _].
      apply convert_to_ims_errors in Hres as [?|[[? ?]|?]]; auto 10.
    - apply convert_to_ometiff_errors in Hres as [?|?]; auto. }
  split; [done|].
  destruct Hcases as [[->|[->| ->]]|[->|[->|(-> & _)]]]; done.
Qed.

Lemma main_error_dialogs_witness :
  (numpy_or_reader_error (RuntimeError "Voxel size entry cancelled.")
   ∨ RuntimeError "Voxel size entry cancelled." = LibraryError "tifffile"
   ∨ RuntimeError "Voxel size entry cancelled."
     = LibraryError "PyImarisWriter"
   ∨ (RuntimeError "Voxel size entry cancelled."
      = RuntimeError "Voxel size entry cancelled."
      ∧ main_use_ims demo_gui demo_world_cancelled = true
      ∧ voxel_sizes demo_world_cancelled = None))
  ∧ RuntimeError "Voxel size entry cancelled."
    ≠ RuntimeError "PyImarisWriter unavailable; cannot write .ims".
Proof.
  apply (main_error_dialogs demo_gui demo_world_cancelled
           (RuntimeError "Voxel size entry cancelled.")).
  - intros PW HPW. vm_compute in HPW. injection HPW as <-.
    split; reflexivity.
  - vm_compute. do 16 right. left.
Defined.

(** ** Which mosaics are accepted *)

Lemma tuple_get_last_two {A} (pre : list A) (y x : A) :
  tuple_get (pre ++ [y; x]) (-2) = Ok y
  ∧ tuple_get (pre ++ [y; x]) (-1) = Ok x.
Proof.
  unfold tuple_get. rewrite length_app. cbn [length].
  replace (Z.of_nat (length pre + 2) + -2)%Z with (Z.of_nat (length pre))
    by lia.
  replace (Z.of_nat (length pre + 2) + -1)%Z
    with (Z.of_nat (S (length pre))) by lia.
  cbn [Z.ltb Z.compare].
  destruct (Z.of_nat (length pre) <? 0)%Z eqn:H1; [apply Z.ltb_lt in H1; lia|].
  destruct (Z.of_nat (S (length pre)) <? 0)%Z eqn:H2;
    [apply Z.ltb_lt in H2; lia|].
  rewrite !Nat2Z.id. split.
  - by rewrite lookup_app_r, Nat.sub_diag by lia.
  - rewrite lookup_app_r by lia.
    by replace (S (length pre) - length pre) with 1 by lia.
Qed.

(** X18.  The plane extents are the last two extents of the sample mosaic,
    whatever its rank.  A mosaic is then accepted exactly when its number of
    samples is a positive multiple of [Y * X]; what is kept of it is its
    first [Y * X] samples, as a plane of shape [(Y, X)] of the same type, and
    whatever follows them is dropped. *)
Theorem plane_extents_and_acceptance sample pre Y X mos :
  arr_shape sample = pre ++ [Y; X] →
  tuple_get (arr_shape sample) (-2) = Ok Y
  ∧ tuple_get (arr_shape sample) (-1) = Ok X
  ∧ ∀ p, first_plane Y X mos = Ok p ↔
         Y * X ≠ 0
         ∧ length (arr_data mos) ≠ 0
         ∧ length (arr_data mos) mod (Y * X) = 0
         ∧ p = mk_ndarray (arr_dtype mos) [Y; X]
                 (take (Y * X) (arr_data mos)).
Proof.
  intros ->. destruct (tuple_get_last_two pre Y X) as [-> ->].
  split; [done|]. split; [done|]. intros p.
  unfold first_plane, reshape_m1, getitem0.
  destruct (decide (Y * X = 0)) as [Hyx|Hyx]; [by split; [|intros (? & _)]|].
  destruct (decide (length (arr_data mos) mod (Y * X) = 0)) as [Hmod|Hmod];
    [|by split; [|intros (_ & _ & ? & _)]].
  cbn [arr_shape arr_dtype arr_data]. rewrite prod_shape_plane.
  pose proof (Nat.div_mod_eq (length (arr_data mos)) (Y * X)) as Hn.
  rewrite Hmod in Hn.
  destruct (decide (length (arr_data mos) / (Y * X) = 0)) as [Hdiv|Hdiv].
  - split; [done|]. intros (_ & Hlen & _). rewrite Hdiv in Hn. lia.
  - split.
    + intros [= <-]. split_and!; try done. intros Hlen.
      rewrite Hlen in Hdiv. by rewrite Nat.Div0.div_0_l in Hdiv.
    + by intros (_ & _ & _ & ->).
Qed.

Lemma plane_extents_and_acceptance_witness :
  tuple_get (arr_shape (mk_ndarray uint8 [1; 2; 2; 3] [])) (-2) = Ok 2
  ∧ tuple_get (arr_shape (mk_ndarray uint8 [1; 2; 2; 3] [])) (-1) = Ok 3
  ∧ ∀ p, first_plane 2 3
           (mk_ndarray uint8 [1; 2; 2; 3]
              [1; 2; 3; 4; 5; 6; 7; 8; 9; 10; 11; 12]%Z) = Ok p ↔
         2 * 3 ≠ 0
         ∧ length (arr_data (mk_ndarray uint8 [1; 2; 2; 3]
                     [1; 2; 3; 4; 5; 6; 7; 8; 9; 10; 11; 12]%Z)) ≠ 0
         ∧ length (arr_data (mk_ndarray uint8 [1; 2; 2; 3]
                     [1; 2; 3; 4; 5; 6; 7; 8; 9; 10; 11; 12]%Z))
             mod (2 * 3) = 0
         ∧ p = mk_ndarray
                 (arr_dtype (mk_ndarray uint8 [1; 2; 2; 3]
                     [1; 2; 3; 4; 5; 6; 7; 8; 9; 10; 11; 12]%Z))
                 [2; 3]
                 (take (2 * 3)
                    (arr_data (mk_ndarray uint8 [1; 2; 2; 3]
                       [1; 2; 3; 4; 5; 6; 7; 8; 9; 10; 11; 12]%Z))).
Proof.
  apply (plane_extents_and_acceptance (mk_ndarray uint8 [1; 2; 2; 3] [])
           [1; 2] 2 3
           (mk_ndarray uint8 [1; 2; 2; 3]
              [1; 2; 3; 4; 5; 6; 7; 8; 9; 10; 11; 12]%Z)).
  reflexivity.
Defined.
